(** * segee_cli: the session engine of the segment tree console

    A shallow embedding of [src/segee_cli/main.py]: the command parser
    ([parse_command] with its local [parse_value]), the pyramid renderer
    ([draw_tree_structure] with its local [get_tree_value]) and one turn of
    the interactive loop ([interactive_mode]).

    Conventions of the embedding.
    - A Python [str] is a [string]; the characters of input lines and of every
      string whose [len] the program takes are ASCII, and the box-drawing
      glyphs of the borders are held as their UTF-8 bytes.
    - A Python [int] is a [Z]; conversions between [int] and [str] are
      unbounded.
    - The values held by the structure are integers and the floats [inf],
      [-inf] and [nan] (the floats reachable from [float('inf')] and
      [float('-inf')] by addition).
    - Code that can raise returns a [result]; [None] is [option]'s [None].
    - The segment tree classes come from the [segee] package, which is not
      part of the sources; the program reaches them through the operations
      gathered in the class [Adapter].
    - Input is a list of events, a line or an interrupt (EOFError or
      KeyboardInterrupt) each; of what is printed the frame of
      [display_split_screen] is kept, the logo, the prompts and the help
      text are left out. *)

From Stdlib Require Import ZArith List String Ascii Bool Lia DecimalString.
From Stdlib Require DecimalZ.
Import ListNotations.

Local Open Scope string_scope.
Local Open Scope Z_scope.

(** ** Exceptions and results *)

(** The exception classes the program tells apart.  [OtherException] stands
    for any further subclass of [Exception]. *)
Inductive exn_class : Type :=
| AttributeError
| IndexError
| ValueError
| TypeError
| OverflowError
| OtherException.

Record exn : Type := mkExn { exn_cls : exn_class; exn_msg : string }.

Inductive result (A : Type) : Type :=
| Ok (a : A)
| Raise (e : exn).

Arguments Ok {A} a.
Arguments Raise {A} e.

Definition bind {A B : Type} (r : result A) (k : A -> result B) : result B :=
  match r with
  | Ok a => k a
  | Raise e => Raise e
  end.

Notation "x <- r ;; k" := (bind r (fun x => k))
  (at level 61, r at next level, right associativity).

(** ** Strings *)

Module PyStr.

Definition code (c : ascii) : nat := nat_of_ascii c.

(** [str.isspace] on the ASCII range: TAB, LF, VT, FF, CR, the separators
    FS, GS, RS, US and the space. *)
Definition isspace (c : ascii) : bool :=
  let n := code c in
  ((9 <=? n) && (n <=? 13))%nat || ((28 <=? n) && (n <=? 32))%nat.

Fixpoint lstrip (s : string) : string :=
  match s with
  | EmptyString => EmptyString
  | String c s' => if isspace c then lstrip s' else s
  end.

Fixpoint rstrip (s : string) : string :=
  match s with
  | EmptyString => EmptyString
  | String c s' =>
      match rstrip s' with
      | EmptyString => if isspace c then EmptyString else String c EmptyString
      | r => String c r
      end
  end.

(** [s.strip()] *)
Definition strip (s : string) : string := rstrip (lstrip s).

(** [s.split()]: the maximal runs of characters that are not white space.
    [cur] is the run being read. *)
Fixpoint split_from (cur : string) (s : string) : list string :=
  match s with
  | EmptyString =>
      match cur with EmptyString => [] | _ => [cur] end
  | String c s' =>
      if isspace c
      then match cur with
           | EmptyString => split_from EmptyString s'
           | _ => cur :: split_from EmptyString s'
           end
      else split_from (cur ++ String c EmptyString) s'
  end.

Definition split (s : string) : list string := split_from EmptyString s.

Definition lower_char (c : ascii) : ascii :=
  let n := code c in
  if ((65 <=? n) && (n <=? 90))%nat then ascii_of_nat (n + 32) else c.

(** [s.lower()] *)
Fixpoint lower (s : string) : string :=
  match s with
  | EmptyString => EmptyString
  | String c s' => String (lower_char c) (lower s')
  end.

(** [s.startswith(p)] *)
Fixpoint startswith (s p : string) {struct p} : bool :=
  match p with
  | EmptyString => true
  | String a p' =>
      match s with
      | EmptyString => false
      | String b s' => (a =? b)%char && startswith s' p'
      end
  end.

Fixpoint mem (s : string) (l : list string) : bool :=
  match l with
  | [] => false
  | x :: l' => (s =? x)%string || mem s l'
  end.

(** [len(s)] of an ASCII string *)
Definition len (s : string) : Z := Z.of_nat (String.length s).

Fixpoint contains (c : ascii) (s : string) : bool :=
  match s with
  | EmptyString => false
  | String c' s' => (c =? c')%char || contains c s'
  end.

Definition hex_digit (n : nat) : ascii :=
  if (n <? 10)%nat then ascii_of_nat (48 + n) else ascii_of_nat (87 + n).

(** One character of [repr(s)], [q] being the quote in use. *)
Definition repr_char (q : ascii) (c : ascii) : string :=
  let n := code c in
  if ((c =? q)%char || (c =? "\")%char) then String "\" (String c EmptyString)
  else if (n =? 9)%nat then "\t"
  else if (n =? 10)%nat then "\n"
  else if (n =? 13)%nat then "\r"
  else if ((n <? 32)%nat || (n =? 127)%nat)
       then String "\" (String "x"
              (String (hex_digit (n / 16)) (String (hex_digit (n mod 16)) EmptyString)))
  else String c EmptyString.

Fixpoint repr_body (q : ascii) (s : string) : string :=
  match s with
  | EmptyString => EmptyString
  | String c s' => repr_char q c ++ repr_body q s'
  end.

(** [repr(s)]: single quotes, unless the string holds a single quote and no
    double quote. *)
Definition repr (s : string) : string :=
  let dq : ascii := ascii_of_nat 34 in
  let q : ascii :=
    if contains "'" s && negb (contains dq s) then dq else "'"%char in
  String q (repr_body q s ++ String q EmptyString).

(** [s.replace(a, b)] for one-character strings [a] and [b] *)
Fixpoint replace_char (a b : ascii) (s : string) : string :=
  match s with
  | EmptyString => EmptyString
  | String c s' => String (if (c =? a)%char then b else c) (replace_char a b s')
  end.

(** A byte that continues a character of a string held as UTF-8 *)
Definition continues (c : ascii) : bool :=
  ((128 <=? code c) && (code c <=? 191))%nat.

(** [len(s)] of a string held as UTF-8: the bytes that start a character *)
Fixpoint chars (s : string) : nat :=
  match s with
  | EmptyString => O
  | String c s' => if continues c then chars s' else S (chars s')
  end.

(** [s[:n]]: the first [n] characters, each with the bytes that continue
    it *)
Fixpoint take (n : nat) (s : string) : string :=
  match s with
  | EmptyString => EmptyString
  | String c s' =>
      if continues c then String c (take n s')
      else match n with
           | O => EmptyString
           | S n' => String c (take n' s')
           end
  end.

End PyStr.

(** ** Numbers *)

(** What an element of the structure can be: an [int], or one of the floats
    [inf], [-inf], [nan]. *)
Inductive value : Type :=
| VInt (z : Z)
| VInf
| VNegInf
| VNan.

Definition value_eqb (a b : value) : bool :=
  match a, b with
  | VInt x, VInt y => x =? y
  | VInf, VInf => true
  | VNegInf, VNegInf => true
  | _, _ => false
  end.

(** [str(z)] for an [int] *)
Definition str_int (z : Z) : string := NilZero.string_of_int (Z.to_int z).

(** [str(v)] *)
Definition py_str (v : value) : string :=
  match v with
  | VInt z => str_int z
  | VInf => "inf"
  | VNegInf => "-inf"
  | VNan => "nan"
  end.

Definition digit_of (c : ascii) : option Z :=
  let n := PyStr.code c in
  if ((48 <=? n) && (n <=? 57))%nat then Some (Z.of_nat n - 48) else None.

(** The digits of an integer literal; single underscores may stand between
    digits.  [prev] tells whether the character before was a digit. *)
Fixpoint parse_digits (acc : Z) (prev : bool) (s : string) : option Z :=
  match s with
  | EmptyString => if prev then Some acc else None
  | String c s' =>
      if (c =? "_")%char
      then if prev then parse_digits acc false s' else None
      else match digit_of c with
           | Some d => parse_digits (10 * acc + d) true s'
           | None => None
           end
  end.

Definition parse_int_literal (s : string) : option Z :=
  match PyStr.strip s with
  | String "-" s' => option_map Z.opp (parse_digits 0 false s')
  | String "+" s' => parse_digits 0 false s'
  | s' => parse_digits 0 false s'
  end.

Definition invalid_literal (s : string) : exn :=
  mkExn ValueError
    ("invalid literal for int() with base 10: " ++ substring 0 200 (PyStr.repr s)).

(** [int(s)] for a string [s] *)
Definition py_int (s : string) : result Z :=
  match parse_int_literal s with
  | Some z => Ok z
  | None => Raise (invalid_literal s)
  end.

(** An [int] converts to a float when it rounds to a finite double: its
    absolute value is below [2^1024 - 2^970]. *)
Definition float_of_int_overflows (z : Z) : bool :=
  2 ^ 1024 - 2 ^ 970 <=? Z.abs z.

Definition int_too_large : exn :=
  mkExn OverflowError "int too large to convert to float".

(** [a + b] on the values of the structure.  An [int] meeting a float is
    converted first; of the floats only [inf], [-inf] and [nan] occur. *)
Definition py_add (a b : value) : result value :=
  match a, b with
  | VInt x, VInt y => Ok (VInt (x + y))
  | VInt x, f | f, VInt x =>
      if float_of_int_overflows x then Raise int_too_large else Ok f
  | VNan, _ | _, VNan => Ok VNan
  | VInf, VInf => Ok VInf
  | VNegInf, VNegInf => Ok VNegInf
  | VInf, VNegInf | VNegInf, VInf => Ok VNan
  end.

(** ** The structure, as the program sees it *)

(** The operations the program applies to a tree, over the states [T] a tree
    can be in.  Each may raise; an assignment returns the state it leaves
    behind and what it raised, if anything.  Reading does not change the
    state. *)
Class Adapter (T : Type) : Type := {
  (** [len(tree)] *)
  tree_len : T -> result Z;
  (** [tree[i]] *)
  tree_getitem : T -> Z -> result value;
  (** [tree[i] = v] *)
  tree_setitem : T -> Z -> value -> T * option exn;
  (** [tree.sum(l, r)], [tree.minimum(l, r)], [tree.maximum(l, r)] *)
  tree_sum : T -> Z -> Z -> result value;
  tree_minimum : T -> Z -> Z -> result value;
  tree_maximum : T -> Z -> Z -> result value;
  (** looking the attribute [tree.prod] up, then calling it *)
  tree_prod_attr : T -> result unit;
  tree_prod : T -> Z -> Z -> result value;
  (** [hasattr(tree, '_data')], [hasattr(tree, '_offset')] *)
  has_data : T -> bool;
  has_offset : T -> bool;
  (** [len(tree._data)], [tree._data[i]] *)
  data_len : T -> result Z;
  data_getitem : T -> Z -> result value
}.

(** ** The command parser *)

Section Parser.

Context {T : Type} `{Adapter T}.

(** [parse_value], local to [parse_command] *)
Definition parse_value (value_str : string) : result value :=
  if PyStr.mem (PyStr.lower value_str) ["inf"; "infinity"] then Ok VInf
  else if PyStr.mem (PyStr.lower value_str) ["-inf"; "-infinity"] then Ok VNegInf
  else z <- py_int value_str ;; Ok (VInt z).

(** [parts[n]] where the program has checked [len(parts)] *)
Definition part (parts : list string) (n : nat) : string :=
  nth n parts EmptyString.

(** [0 <= index < len(tree)] *)
Definition index_in_range (tree : T) (index : Z) : result bool :=
  if 0 <=? index then n <- tree_len tree ;; Ok (index <? n) else Ok false.

(** [0 <= left < right <= len(tree)] *)
Definition range_in_bounds (tree : T) (left right : Z) : result bool :=
  if 0 <=? left
  then if left <? right then n <- tree_len tree ;; Ok (right <=? n) else Ok false
  else Ok false.

Definition index_error (tree : T) (index : Z) : result string :=
  n1 <- tree_len tree ;;
  n2 <- tree_len tree ;;
  Ok ("Index Error: " ++ str_int index ++ " is out of range [0, "
        ++ str_int (n1 - 1) ++ "] (size=" ++ str_int n2 ++ ")").

Definition range_error (tree : T) (left right : Z) : result string :=
  n1 <- tree_len tree ;;
  n2 <- tree_len tree ;;
  Ok ("Range Error: [" ++ str_int left ++ ", " ++ str_int right
        ++ "] is invalid for size " ++ str_int n1 ++ " (valid: [0, "
        ++ str_int (n2 - 1) ++ "])").

Definition usage_index_value (command : string) (parts : list string) : string :=
  "Usage: " ++ command ++ " <index> <value> (need exactly 2 arguments, got "
    ++ str_int (Z.of_nat (List.length parts) - 1) ++ ")".

Definition usage_left_right (command : string) (parts : list string) : string :=
  "Usage: " ++ command ++ " <left> <right> (need exactly 2 arguments, got "
    ++ str_int (Z.of_nat (List.length parts) - 1) ++ ")".

Definition unknown_command (command : string) : string :=
  "Unknown command: '" ++ command ++ "'. Type '/help' for available commands.".

(** What a statement of the [try] block leaves: the tree, and the value
    returned or the exception raised. *)
Definition outcome : Type := (T * result (option string))%type.

(** The branch of [set] / [s] *)
Definition do_set (tree : T) (parts : list string) : outcome :=
  match py_int (part parts 1) with
  | Raise e => (tree, Raise e)
  | Ok index =>
      match parse_value (part parts 2) with
      | Raise e => (tree, Raise e)
      | Ok v =>
          match index_in_range tree index with
          | Raise e => (tree, Raise e)
          | Ok true =>
              match tree_setitem tree index v with
              | (tree', None) => (tree', Ok None)
              | (tree', Some e) => (tree', Raise e)
              end
          | Ok false => (tree, s <- index_error tree index ;; Ok (Some s))
          end
      end
  end.

(** The branch of [add] / [a]; [tree[index] += value] reads the element,
    adds, and assigns. *)
Definition do_add (tree : T) (parts : list string) : outcome :=
  match py_int (part parts 1) with
  | Raise e => (tree, Raise e)
  | Ok index =>
      match parse_value (part parts 2) with
      | Raise e => (tree, Raise e)
      | Ok v =>
          match index_in_range tree index with
          | Raise e => (tree, Raise e)
          | Ok true =>
              match (old <- tree_getitem tree index ;; py_add old v) with
              | Raise e => (tree, Raise e)
              | Ok new =>
                  match tree_setitem tree index new with
                  | (tree', None) => (tree', Ok None)
                  | (tree', Some e) => (tree', Raise e)
                  end
              end
          | Ok false => (tree, s <- index_error tree index ;; Ok (Some s))
          end
      end
  end.

(** The branch of [query] / [q]; a [tree_type] other than the three falls
    out of the [if] chain and the function returns [None]. *)
Definition do_query (tree : T) (tree_type : string) (parts : list string)
  : result (option string) :=
  left <- py_int (part parts 1) ;;
  right <- py_int (part parts 2) ;;
  ok <- range_in_bounds tree left right ;;
  if ok : bool
  then if (tree_type =? "sum")%string
       then r <- tree_sum tree left right ;; Ok (Some (py_str r))
       else if (tree_type =? "min")%string
       then r <- tree_minimum tree left right ;; Ok (Some (py_str r))
       else if (tree_type =? "max")%string
       then r <- tree_maximum tree left right ;; Ok (Some (py_str r))
       else Ok None
  else s <- range_error tree left right ;; Ok (Some s).

(** The final [else] of the chain *)
Definition do_other (command : string) (parts : list string) : option string :=
  if PyStr.mem command ["set"; "s"; "add"; "a"]
  then if negb (Nat.eqb (List.length parts) 3)
       then Some (usage_index_value command parts)
       else Some "Invalid arguments - check that index and value are integers"
  else if PyStr.mem command ["query"; "q"]
  then if negb (Nat.eqb (List.length parts) 3)
       then Some (usage_left_right command parts)
       else Some "Invalid arguments - check that left and right are integers"
  else Some (unknown_command command).

(** The body of the [try] *)
Definition try_body (command : string) (parts : list string) (tree : T)
    (tree_type : string) : outcome :=
  if ((command =? "set")%string || (command =? "s")%string)
       && Nat.eqb (List.length parts) 3
  then do_set tree parts
  else if ((command =? "add")%string || (command =? "a")%string)
       && Nat.eqb (List.length parts) 3
  then do_add tree parts
  else if ((command =? "query")%string || (command =? "q")%string)
       && Nat.eqb (List.length parts) 3
  then (tree, do_query tree tree_type parts)
  else if PyStr.mem command ["quit"; "exit"]
  then (tree, Ok (Some "quit"))
  else (tree, Ok (do_other command parts)).

(** The two [except] clauses, [ValueError] first *)
Definition handle (r : result (option string)) : option string :=
  match r with
  | Ok v => v
  | Raise e =>
      match exn_cls e with
      | ValueError =>
          Some ("Invalid format: " ++ exn_msg e ++ " (ensure all numbers are integers)")
      | _ => Some ("Error: " ++ exn_msg e)
      end
  end.

Definition slash_command (command : string) : string :=
  if (command =? "/reset")%string then "reset"
  else if (command =? "/home")%string then "home"
  else if (command =? "/help")%string then "show_help"
  else "Unknown slash command. Try /help for available commands.".

(** [parse_command(cmd, tree, tree_type)]: the tree as the call leaves it,
    and the value returned *)
Definition parse_command (cmd : string) (tree : T) (tree_type : string)
  : T * option string :=
  let parts := PyStr.split (PyStr.strip cmd) in
  match parts with
  | [] => (tree, None)
  | p0 :: _ =>
      let command := PyStr.lower p0 in
      if PyStr.startswith command "/"
      then (tree, Some (slash_command command))
      else let '(tree', r) := try_body command parts tree tree_type in
           (tree', handle r)
  end.

(** ** The interactive loop *)

Record session : Type := mkSession {
  s_tree : T;
  s_commands : list string
}.

(** What [input] gives: a line, or [EOFError] / [KeyboardInterrupt] *)
Inductive input_event : Type :=
| Line (cmd : string)
| Interrupt.

(** How an iteration of [while True] ends: with the next iteration, with
    [break], or with [return "home"] *)
Inductive step : Type :=
| Continue (s : session)
| Break
| ReturnHome.

Definition result_is (result : option string) (s : string) : bool :=
  match result with
  | Some r => (r =? s)%string
  | None => false
  end.

(** [if result:] *)
Definition truthy (result : option string) : list string :=
  match result with
  | Some EmptyString => []
  | Some r => [r]
  | None => []
  end.

(** One iteration of the loop of [interactive_mode], from [input] on *)
Definition turn (tree_type : string) (tree_class : Z -> T) (s : session)
    (ev : input_event) : step :=
  match ev with
  | Interrupt => Break
  | Line cmd =>
      match PyStr.strip cmd with
      | EmptyString => Continue s
      | _ =>
          let '(tree, result) := parse_command cmd (s_tree s) tree_type in
          if result_is result "quit" then Break
          else if result_is result "reset"
          then Continue (mkSession (tree_class 16) [])
          else if result_is result "home" then ReturnHome
          else if result_is result "show_help"
          then Continue (mkSession tree (s_commands s))
          else Continue
                 (mkSession tree
                    (s_commands s ++ ["> " ++ cmd] ++ truthy result))
      end
  end.

End Parser.

(** ** The pyramid renderer *)

Definition LEAF_CELL_WIDTH : Z := 12.

Definition ESC : ascii := ascii_of_nat 27.

Definition BORDER_COLOR : string := String ESC "[90m".
Definition COLOR_RESET : string := String ESC "[0m".

(** [s * n]; a count below 1 gives the empty string. *)
Definition times (s : string) (n : Z) : string :=
  concat EmptyString (repeat s (Z.to_nat n)).

(** [range(n)] *)
Definition range (n : Z) : list Z := map Z.of_nat (seq 0 (Z.to_nat n)).

(** [enumerate(l)] *)
Definition enumerate (l : list Z) : list (Z * Z) :=
  combine (range (Z.of_nat (List.length l))) l.

Definition levels : list Z := [1; 2; 4; 8; 16].

(** The classes named by the [except] clause of [get_tree_value] *)
Definition caught (e : exn) : bool :=
  match exn_cls e with
  | AttributeError | IndexError | ValueError | TypeError => true
  | _ => false
  end.

Section Renderer.

Context {T : Type} `{Adapter T}.

Definition internal_idx (level pos : Z) : Z :=
  if level =? 0 then 0
  else if level =? 1 then 1 + pos
  else if level =? 2 then 3 + pos
  else if level =? 3 then 7 + pos
  else 0.

(** The first [if] of the [try] block: the node read from [tree._data];
    [None] when control passes on to the range queries. *)
Definition introspect (tree : T) (level pos : Z) : result (option string) :=
  if has_data tree && has_offset tree
  then n <- data_len tree ;;
       if internal_idx level pos <? n
       then v <- data_getitem tree (internal_idx level pos) ;;
            Ok (Some (if value_eqb v VInf then "inf"
                      else if value_eqb v VNegInf then "-inf"
                      else py_str v))
       else Ok None
  else Ok None.

(** [str(tree.prod(l, r))] once the bounds are known *)
Definition prod_str (tree : T) (l r : Z) : result string :=
  v <- tree_prod tree l r ;; Ok (py_str v).

(** The range queries of the [try] block *)
Definition fallback (tree : T) (level pos : Z) : result string :=
  if level =? 0
  then _ <- tree_prod_attr tree ;;
       n <- tree_len tree ;;
       prod_str tree 0 n
  else if level =? 1
  then n <- tree_len tree ;;
       let mid := n / 2 in
       if pos =? 0
       then _ <- tree_prod_attr tree ;; prod_str tree 0 mid
       else _ <- tree_prod_attr tree ;;
            n' <- tree_len tree ;;
            prod_str tree mid n'
  else if level =? 2
  then n <- tree_len tree ;;
       let quarter := n / 4 in
       let start := pos * quarter in
       let end_ := (pos + 1) * quarter in
       _ <- tree_prod_attr tree ;; prod_str tree start end_
  else if level =? 3
  then n <- tree_len tree ;;
       let eighth := n / 8 in
       let start := pos * eighth in
       let end_ := (pos + 1) * eighth in
       _ <- tree_prod_attr tree ;; prod_str tree start end_
  else Ok "0".

(** The body of the [try] *)
Definition resolve_internal (tree : T) (level pos : Z) : result string :=
  r <- introspect tree level pos ;;
  match r with
  | Some s => Ok s
  | None => fallback tree level pos
  end.

(** [get_tree_value], local to [draw_tree_structure] *)
Definition get_tree_value (tree : option T) (level pos : Z) : result string :=
  match tree with
  | None => Ok "0"
  | Some t =>
      if level =? 4
      then n <- tree_len t ;;
           if pos <? n
           then v <- tree_getitem t pos ;; Ok (py_str v)
           else Ok "0"
      else match resolve_internal t level pos with
           | Ok s => Ok s
           | Raise e => if caught e then Ok "?" else Raise e
           end
  end.

Definition border (glyph : string) : string := BORDER_COLOR ++ glyph ++ COLOR_RESET.

Definition h_line (cell_width : Z) : string :=
  BORDER_COLOR ++ times "─" (cell_width - 1) ++ COLOR_RESET.

(** A top or bottom border, with its corner and joint glyphs *)
Definition border_line (padding cell_count cell_width : Z)
    (left joint right : string) : string :=
  if cell_count =? 1
  then times " " padding ++ border left ++ h_line cell_width ++ border right
  else let separator := border joint ++ h_line cell_width in
       times " " padding ++ border left ++ h_line cell_width
         ++ times separator (cell_count - 1) ++ border right.

Definition empty_line (padding cell_count cell_width : Z) : string :=
  fold_left
    (fun line _ => line ++ times " " (cell_width - 1) ++ border "│")
    (range cell_count)
    (times " " padding ++ border "│").

(** One cell of a content row *)
Definition content_cell (cell_width : Z) (value : string) : string :=
  let value_padding := (cell_width - 1 - PyStr.len value) / 2 in
  let left_pad := value_padding in
  let right_pad := cell_width - 1 - PyStr.len value - left_pad in
  times " " left_pad ++ value ++ times " " right_pad ++ border "│".

Fixpoint content_cells (tree : option T) (level_idx cell_width : Z)
    (cells : list Z) (line : string) : result string :=
  match cells with
  | [] => Ok line
  | i :: cells' =>
      value <- get_tree_value tree level_idx i ;;
      content_cells tree level_idx cell_width cells'
        (line ++ content_cell cell_width value)
  end.

Definition content_line (tree : option T) (padding level_idx cell_count cell_width : Z)
  : result string :=
  content_cells tree level_idx cell_width (range cell_count)
    (times " " padding ++ border "│").

Definition cell_width_of (level_idx : Z) : Z :=
  let level_from_bottom := Z.of_nat (List.length levels) - 1 - level_idx in
  LEAF_CELL_WIDTH * 2 ^ level_from_bottom.

(** The body of [for level_idx, cell_count in enumerate(levels)] *)
Definition draw_level (tree : option T) (level_idx cell_count : Z)
    (lines : list string) : result (list string) :=
  let cell_width := cell_width_of level_idx in
  let padding := 0 in
  let lines :=
    if level_idx =? 0
    then (lines ++ [border_line padding cell_count cell_width "┌" "┬" "┐"])%list
    else lines in
  let lines := (lines ++ [empty_line padding cell_count cell_width])%list in
  content <- content_line tree padding level_idx cell_count cell_width ;;
  let lines := (lines ++ [content])%list in
  let lines := (lines ++ [empty_line padding cell_count cell_width])%list in
  Ok (lines ++ [border_line padding cell_count cell_width "└" "┴" "┘"])%list.

Fixpoint draw_levels (tree : option T) (todo : list (Z * Z))
    (lines : list string) : result (list string) :=
  match todo with
  | [] => Ok lines
  | (level_idx, cell_count) :: todo' =>
      lines' <- draw_level tree level_idx cell_count lines ;;
      draw_levels tree todo' lines'
  end.

(** One cell of the row of leaf indices *)
Definition index_cell (cell_count cell_width i : Z) : string :=
  let index_str := String ESC "[33m" ++ str_int i ++ String ESC "[0m" in
  let visible_len := PyStr.len (str_int i) in
  let index_padding := (cell_width - 1 - visible_len) / 2 in
  let left_pad := index_padding in
  let right_pad := cell_width - 1 - visible_len - left_pad in
  times " " left_pad ++ index_str ++ times " " right_pad
    ++ (if i <? cell_count - 1 then " " else EmptyString).

Definition index_line (padding cell_count cell_width : Z) : string :=
  fold_left (fun line i => line ++ index_cell cell_count cell_width i)
    (range cell_count) (times " " (padding + 1)).

(** [draw_tree_structure(tree)].  After the loop [level_idx], [cell_count]
    and [cell_width] are those of its last iteration. *)
Definition draw_tree_structure (tree : option T) : result (list string) :=
  lines <- draw_levels tree (enumerate levels) [] ;;
  let '(level_idx, cell_count) := last (enumerate levels) (0, 0) in
  let cell_width := cell_width_of level_idx in
  let padding := 0 in
  if level_idx =? Z.of_nat (List.length levels) - 1
  then Ok (lines ++ [index_line padding cell_count cell_width])%list
  else Ok lines.

End Renderer.

(** ** The history panel *)

Definition COMMAND_ROWS : Z := 20.

Definition TAB : ascii := ascii_of_nat 9.

(** [format(s, "<n")]: [s] to the left of [n] columns *)
Definition ljust (s : string) (n : Z) : string :=
  s ++ times " " (n - Z.of_nat (PyStr.chars s)).

Definition panel_top : string :=
  BORDER_COLOR ++ "┌─────── COMMAND ──────────────┐" ++ COLOR_RESET.

Definition panel_bottom : string :=
  BORDER_COLOR ++ "└──────────────────────────────┘" ++ COLOR_RESET.

(** The row of a history entry: tabs made spaces, cut to 28 characters and
    filled up to 28 *)
Definition entry_row (entry : string) : string :=
  let cmd := PyStr.take 28 (PyStr.replace_char TAB " " entry) in
  border "│" ++ " " ++ ljust cmd 28 ++ " " ++ border "│".

Definition prompt_row : string :=
  border "│" ++ " >                            " ++ border "│".

Definition blank_row : string :=
  border "│" ++ "                              " ++ border "│".

(** [commands[-COMMAND_ROWS:] if len(commands) > COMMAND_ROWS else commands] *)
Definition display_commands (commands : list string) : list string :=
  if COMMAND_ROWS <? Z.of_nat (List.length commands)
  then skipn (List.length commands - Z.to_nat COMMAND_ROWS) commands
  else commands.

(** The row the loop over [range(COMMAND_ROWS)] appends at [i] *)
Definition panel_row (shown : list string) (i : Z) : string :=
  if i <? Z.of_nat (List.length shown)
  then entry_row (nth (Z.to_nat i) shown EmptyString)
  else if i =? Z.of_nat (List.length shown) then prompt_row
  else blank_row.

(** [draw_command_area(commands)]; [None] is the default of the argument. *)
Definition draw_command_area (commands : option (list string)) : list string :=
  let commands := match commands with None => [] | Some c => c end in
  let shown := display_commands commands in
  ([panel_top] ++ map (panel_row shown) (range COMMAND_ROWS) ++ [panel_bottom])%list.

(** ** The screen *)

Section Screen.

Context {T : Type} `{Adapter T}.

(** [display_split_screen(commands, tree)]: the lines printed once the screen
    is cleared *)
Definition display_split_screen (commands : option (list string))
    (tree : option T) : result (list string) :=
  let command_width := 32 in
  let gap_width := 8 in
  let command_lines := draw_command_area commands in
  tree_lines <- draw_tree_structure tree ;;
  let max_height := Nat.max (List.length command_lines) (List.length tree_lines) in
  let command_lines :=
    (command_lines
       ++ repeat (times " " 30) (max_height - List.length command_lines))%list in
  let tree_lines :=
    (tree_lines ++ repeat EmptyString (max_height - List.length tree_lines))%list in
  Ok (map (fun '(command_line, tree_line) =>
             ljust command_line command_width ++ times " " gap_width ++ tree_line)
          (combine command_lines tree_lines)).

(** ** The session *)

(** How [interactive_mode] ends on the inputs it is given: with [break], with
    [return "home"], with an exception of the display, or waiting for a line
    that does not come. *)
Inductive ending : Type :=
| Quit
| Home
| Raised (e : exn)
| Blocked (s : @session T).

(** The turn shows the help screen, which reads a line of its own. *)
Definition shows_help (tree_type : string) (s : session) (ev : input_event)
  : bool :=
  match ev with
  | Interrupt => false
  | Line cmd =>
      match PyStr.strip cmd with
      | EmptyString => false
      | _ => result_is (snd (parse_command cmd (s_tree s) tree_type)) "show_help"
      end
  end.

(** The loop of [interactive_mode]: the display, then the turn; with the
    ending, the inputs left for the caller. *)
Fixpoint interactive_run (tree_type : string) (tree_class : Z -> T)
    (s : session) (events : list input_event) {struct events}
  : ending * list input_event :=
  match display_split_screen (Some (s_commands s)) (Some (s_tree s)) with
  | Raise e => (Raised e, events)
  | Ok _ =>
      match events with
      | [] => (Blocked s, [])
      | ev :: events' =>
          match turn tree_type tree_class s ev with
          | Break => (Quit, events')
          | ReturnHome => (Home, events')
          | Continue s' =>
              if shows_help tree_type s ev
              then match events' with
                   | [] => (Blocked s', [])
                   | _ :: events'' =>
                       interactive_run tree_type tree_class s' events''
                   end
              else interactive_run tree_type tree_class s' events'
          end
      end
  end.

(** [interactive_mode(tree_type, tree_class)] on the given inputs *)
Definition interactive_mode (tree_type : string) (tree_class : Z -> T)
    (events : list input_event) : ending * list input_event :=
  interactive_run tree_type tree_class (mkSession (tree_class 16) []) events.

(** ** The menu and the program *)

(** The three classes of the [segee] package *)
Variables SumSegmentTree MinSegmentTree MaxSegmentTree : Z -> T.

(** What [select_tree_type] comes to: a pair returned, [sys.exit(0)], or
    waiting for a choice. *)
Inductive selection : Type :=
| Selected (tree_type : string) (tree_class : Z -> T)
| SystemExit
| AwaitingChoice.

(** [select_tree_type()] on the given inputs, with the inputs left *)
Fixpoint select_tree_type (events : list input_event)
  : selection * list input_event :=
  match events with
  | [] => (AwaitingChoice, [])
  | Interrupt :: events' => (SystemExit, events')
  | Line choice :: events' =>
      if (choice =? "1")%string then (Selected "sum" SumSegmentTree, events')
      else if (choice =? "2")%string then (Selected "min" MinSegmentTree, events')
      else if (choice =? "3")%string then (Selected "max" MaxSegmentTree, events')
      else select_tree_type events'
  end.

(** How the program ends on the inputs it is given *)
Inductive program_end : Type :=
| MainReturns
| SysExit
| UncaughtInterrupt
| UncaughtError (e : exn)
| AwaitingInput
| OutOfFuel.

(** The loop of [main]; every round uses up an input, which [fuel] counts. *)
Fixpoint main_loop (fuel : nat) (events : list input_event) : program_end :=
  match fuel with
  | O => OutOfFuel
  | S fuel' =>
      match select_tree_type events with
      | (AwaitingChoice, _) => AwaitingInput
      | (SystemExit, _) => SysExit
      | (Selected tree_type tree_class, events') =>
          match events' with
          | [] => AwaitingInput
          | Interrupt :: _ => UncaughtInterrupt
          | Line _ :: events'' =>
              match interactive_mode tree_type tree_class events'' with
              | (Home, rest) => main_loop fuel' rest
              | (Quit, _) => MainReturns
              | (Raised e, _) => UncaughtError e
              | (Blocked _, _) => AwaitingInput
              end
          end
      end
  end.

(** [main()] on the given inputs *)
Definition main (events : list input_event) : program_end :=
  main_loop (S (List.length events)) events.

End Screen.

(** ** The aggregate structure of the specification *)

Module SegTree.

Inductive variant : Type := Sum | Min | Max.

(** Modelled from the spec: the aggregate structure of the [segee] package
    (classes [SumSegmentTree], [MinSegmentTree], [MaxSegmentTree], not among
    the sources), after sections 3 and 6 of the specification: a container
    of fixed length over the integers and the two infinities, with constant
    time point access, a half-open range aggregate of its variant, and
    optionally its internal node array, root at node 0, level 1 at nodes
    1-2, level 2 at nodes 3-6, level 3 at nodes 7-14. *)
Record t : Type := mk {
  variant_of : variant;
  elems : list value;
  introspection : bool
}.

(** The sum of the extended reals; the one undefined sum is [nan]. *)
Definition add (a b : value) : value :=
  match a, b with
  | VInt x, VInt y => VInt (x + y)
  | VNan, _ | _, VNan => VNan
  | VInf, VNegInf | VNegInf, VInf => VNan
  | VInf, _ | _, VInf => VInf
  | VNegInf, _ | _, VNegInf => VNegInf
  end.

(** [a < b] *)
Definition ltb (a b : value) : bool :=
  match a, b with
  | VNan, _ | _, VNan => false
  | VInt x, VInt y => x <? y
  | VNegInf, VNegInf => false
  | VNegInf, _ => true
  | _, VNegInf => false
  | VInf, _ => false
  | _, VInf => true
  end.

Definition op (k : variant) (a b : value) : value :=
  match k with
  | Sum => add a b
  | Min => if ltb b a then b else a
  | Max => if ltb a b then b else a
  end.

Definition identity (k : variant) : value :=
  match k with
  | Sum => VInt 0
  | Min => VInf
  | Max => VNegInf
  end.

Definition length (s : t) : Z := Z.of_nat (List.length (elems s)).

Definition slice (s : t) (l r : Z) : list value :=
  firstn (Z.to_nat (r - l)) (skipn (Z.to_nat l) (elems s)).

Definition out_of_range : exn := mkExn IndexError "index out of range".

(** rangeAggregate(left, right) *)
Definition aggregate (s : t) (l r : Z) : result value :=
  if (0 <=? l) && (l <=? r) && (r <=? length s)
  then Ok (fold_left (op (variant_of s)) (slice s l r) (identity (variant_of s)))
  else Raise out_of_range.

(** get(index) *)
Definition get (s : t) (i : Z) : result value :=
  if (0 <=? i) && (i <? length s)
  then Ok (nth (Z.to_nat i) (elems s) (VInt 0))
  else Raise out_of_range.

Fixpoint update (l : list value) (n : nat) (v : value) : list value :=
  match l, n with
  | [], _ => []
  | _ :: l', O => v :: l'
  | x :: l', S n' => x :: update l' n' v
  end.

(** set(index, value) *)
Definition set (s : t) (i : Z) (v : value) : t * option exn :=
  if (0 <=? i) && (i <? length s)
  then (mk (variant_of s) (update (elems s) (Z.to_nat i) v) (introspection s), None)
  else (s, Some out_of_range).

Definition no_attribute (name : string) : exn :=
  mkExn AttributeError ("object has no attribute '" ++ name ++ "'").

(** The aggregate under the name of a variant *)
Definition named (k : variant) (name : string) (s : t) (l r : Z) : result value :=
  match k, variant_of s with
  | Sum, Sum | Min, Min | Max, Max => aggregate s l r
  | _, _ => Raise (no_attribute name)
  end.

(** The range of the elements below node [k] of the internal node array *)
Definition node_range (s : t) (k : Z) : Z * Z :=
  let level := Z.log2 (k + 1) in
  let pos := k + 1 - 2 ^ level in
  let width := length s / 2 ^ level in
  (pos * width, (pos + 1) * width).

(** The internal node array: the inner nodes, then the elements *)
Definition node (s : t) (k : Z) : result value :=
  if introspection s
  then if (0 <=? k) && (k <? length s - 1)
       then aggregate s (fst (node_range s k)) (snd (node_range s k))
       else get s (k - (length s - 1))
  else Raise (no_attribute "_data").

Definition node_count (s : t) : result Z :=
  if introspection s then Ok (2 * length s - 1)
  else Raise (no_attribute "_data").

(** A new structure of [n] elements, all zero *)
Definition create (k : variant) (intro : bool) (n : Z) : t :=
  mk k (repeat (VInt 0) (Z.to_nat n)) intro.

End SegTree.

#[export] Instance SegTree_Adapter : Adapter SegTree.t := {
  tree_len s := Ok (SegTree.length s);
  tree_getitem := SegTree.get;
  tree_setitem := SegTree.set;
  tree_sum := SegTree.named SegTree.Sum "sum";
  tree_minimum := SegTree.named SegTree.Min "minimum";
  tree_maximum := SegTree.named SegTree.Max "maximum";
  tree_prod_attr _ := Ok tt;
  tree_prod := SegTree.aggregate;
  has_data := SegTree.introspection;
  has_offset := SegTree.introspection;
  data_len := SegTree.node_count;
  data_getitem := SegTree.node
}.

(** ** Objects that are no aggregate structure *)

(** An object given by what each operation answers; assigning to it changes
    nothing.  It stands for the structure arguments that do not keep the
    contract of the aggregate structure. *)
Record object : Type := mkObject {
  o_len : result Z;
  o_getitem : Z -> result value;
  o_setitem : Z -> value -> option exn;
  o_sum : Z -> Z -> result value;
  o_minimum : Z -> Z -> result value;
  o_maximum : Z -> Z -> result value;
  o_prod_attr : result unit;
  o_prod : Z -> Z -> result value;
  o_has_data : bool;
  o_has_offset : bool;
  o_data_len : result Z;
  o_data_getitem : Z -> result value
}.

#[export] Instance object_Adapter : Adapter object := {
  tree_len := o_len;
  tree_getitem := o_getitem;
  tree_setitem o i v := (o, o_setitem o i v);
  tree_sum := o_sum;
  tree_minimum := o_minimum;
  tree_maximum := o_maximum;
  tree_prod_attr := o_prod_attr;
  tree_prod := o_prod;
  has_data := o_has_data;
  has_offset := o_has_offset;
  data_len := o_data_len;
  data_getitem := o_data_getitem
}.

(** The view of a structure as an object: reads answer as the structure does;
    [getitem] and [data] can be replaced to make the view inconsistent. *)
Definition view (s : SegTree.t) (getitem : Z -> result value)
    (data_len : result Z) : object :=
  mkObject (Ok (SegTree.length s)) getitem
    (fun i v => snd (SegTree.set s i v))
    (SegTree.named SegTree.Sum "sum" s)
    (SegTree.named SegTree.Min "minimum" s)
    (SegTree.named SegTree.Max "maximum" s)
    (Ok tt) (SegTree.aggregate s)
    (SegTree.introspection s) (SegTree.introspection s)
    data_len (SegTree.node s).

(** * The notions the properties are stated with *)

(** ** How results are told apart *)








(** ** Bounds, nodes and rows *)





(** The four rows of a level below the top border *)
Definition level_rows (level : Z) (content : string) : list string :=
  [ empty_line 0 (2 ^ level) (cell_width_of level);
    content;
    empty_line 0 (2 ^ level) (cell_width_of level);
    border_line 0 (2 ^ level) (cell_width_of level) "└" "┴" "┘" ].

(** The lines of the pyramid with the content rows [c0] to [c4], root first *)
Definition pyramid (c0 c1 c2 c3 c4 : string) : list string :=
  ([border_line 0 1 (cell_width_of 0) "┌" "┬" "┐"]
     ++ level_rows 0 c0 ++ level_rows 1 c1 ++ level_rows 2 c2
     ++ level_rows 3 c3 ++ level_rows 4 c4
     ++ [index_line 0 16 LEAF_CELL_WIDTH])%list.

(** ** What a row spans on the screen *)

(** A byte that continues a UTF-8 sequence *)
Definition is_continuation (c : ascii) : bool :=
  ((128 <=? PyStr.code c) && (PyStr.code c <=? 191))%nat.

(** The characters of a line outside its colour sequences, which run from
    ESC to the letter [m].  [in_escape] tells whether such a sequence is
    open. *)
Fixpoint visible_width_from (in_escape : bool) (s : string) : Z :=
  match s with
  | EmptyString => 0
  | String c s' =>
      if in_escape then visible_width_from (negb (c =? "m")%char) s'
      else if (c =? ESC)%char then visible_width_from true s'
      else (if is_continuation c then 0 else 1) + visible_width_from false s'
  end.

Definition visible_width (s : string) : Z := visible_width_from false s.

(** Whether a colour sequence is open after [s] *)
Fixpoint escape_after (in_escape : bool) (s : string) : bool :=
  match s with
  | EmptyString => in_escape
  | String c s' =>
      if in_escape then escape_after (negb (c =? "m")%char) s'
      else if (c =? ESC)%char then escape_after true s'
      else escape_after false s'
  end.

(** A string of ASCII characters without ESC *)
Fixpoint plain (s : string) : bool :=
  match s with
  | EmptyString => true
  | String c s' =>
      negb (c =? ESC)%char && (PyStr.code c <? 128)%nat && plain s'
  end.

(** ** What is asked of a structure *)

Section Notions.

Context {T : Type} `{Adapter T}.





(** Whatever the reads of the internal levels raise is of a class the
    [except] clause names. *)
Definition raises_only_caught (tree : T) : Prop :=
  (forall e, tree_len tree = Raise e -> caught e = true)
  /\ (forall e, tree_prod_attr tree = Raise e -> caught e = true)
  /\ (forall l r e, tree_prod tree l r = Raise e -> caught e = true)
  /\ (forall e, data_len tree = Raise e -> caught e = true)
  /\ (forall i e, data_getitem tree i = Raise e -> caught e = true).

(** The structure bound to the renderer, if any, answers for its length
    and for the elements below it, and its other reads raise nothing
    outside the classes the renderer catches. *)
Definition renderable (tree : option T) : Prop :=
  match tree with
  | None => True
  | Some t =>
      (exists n, tree_len t = Ok n
                 /\ forall i, 0 <= i < n -> exists v, tree_getitem t i = Ok v)
      /\ raises_only_caught t
  end.

End Notions.

(** ** Words and digits *)



(** Every character of [s] is white space. *)
Fixpoint blank (s : string) : bool :=
  match s with
  | EmptyString => true
  | String c s' => PyStr.isspace c && blank s'
  end.






(** A line the menu passes over: any but exactly [1], [2] or [3] *)
Definition passed_over (ev : input_event) : bool :=
  match ev with
  | Line choice => negb (PyStr.mem choice ["1"; "2"; "3"])
  | Interrupt => false
  end.

(** A glyph of the frame: one character wide, without colour sequence *)
Definition one_column (glyph : string) : Prop :=
  visible_width_from false glyph = 1 /\ escape_after false glyph = false.

(** The widest value of every cell fits the inside of the cell. *)
Definition values_fit {T : Type} `{Adapter T} (tree : option T) : Prop :=
  forall level i s,
    0 <= level <= 4 -> 0 <= i < 2 ^ level ->
    get_tree_value tree level i = Ok s ->
    PyStr.len s <= cell_width_of level - 1.

(** The entries of the history given to the panel *)
Definition entries (commands : option (list string)) : list string :=
  match commands with
  | None => []
  | Some c => c
  end.

(** No entry holds the character ESC. *)
Definition escape_free (commands : option (list string)) : Prop :=
  forall entry, In entry (entries commands) -> PyStr.contains ESC entry = false.

(** The message of the two branches that tell of invalid arguments *)
Definition is_invalid_arguments (r : option string) : bool :=
  match r with
  | Some s => PyStr.startswith s "Invalid arguments"
  | None => false
  end.

(** ** The structures of the runs *)

(** The structure a session of the sum variant starts with *)
Definition fresh : SegTree.t := SegTree.create SegTree.Sum true 16.

(** The three classes of structures, with their node arrays *)
Definition sum_class : Z -> SegTree.t := SegTree.create SegTree.Sum true.
Definition min_class : Z -> SegTree.t := SegTree.create SegTree.Min true.
Definition max_class : Z -> SegTree.t := SegTree.create SegTree.Max true.


(** A structure that answers for 16 elements and holds none *)
Definition inconsistent : object :=
  view fresh (fun _ => Raise SegTree.out_of_range) (SegTree.node_count fresh).

(** A structure without node array whose aggregate adds an integer too large
    for a float to an infinity *)
Definition overflowing : object :=
  mkObject (Ok 16) (fun _ => Ok (VInt 0)) (fun _ _ => None)
    (fun _ _ => Raise int_too_large) (fun _ _ => Raise int_too_large)
    (fun _ _ => Raise int_too_large)
    (Ok tt) (fun _ _ => Raise int_too_large)
    false false
    (Raise (SegTree.no_attribute "_data"))
    (fun _ => Raise (SegTree.no_attribute "_data")).

(** An object with none of the operations of a structure *)
Definition bare : object :=
  let no_len := mkExn TypeError "object of type 'object' has no len()" in
  let no_item := mkExn TypeError "'object' object is not subscriptable" in
  mkObject (Raise no_len) (fun _ => Raise no_item) (fun _ _ => Some no_item)
    (fun _ _ => Raise (SegTree.no_attribute "sum"))
    (fun _ _ => Raise (SegTree.no_attribute "minimum"))
    (fun _ _ => Raise (SegTree.no_attribute "maximum"))
    (Raise (SegTree.no_attribute "prod"))
    (fun _ _ => Raise (SegTree.no_attribute "prod"))
    false false
    (Raise (SegTree.no_attribute "_data"))
    (fun _ => Raise (SegTree.no_attribute "_data")).

(** * Properties *)

(** ** Strings and numbers *)


Lemma split_empty : PyStr.split EmptyString = [].
Proof. reflexivity. Qed.

Lemma str_int_head (z : Z) :
  exists c s, str_int z = String c s
              /\ ((48 <=? PyStr.code c) && (PyStr.code c <=? 57))%nat
                 || (c =? "-")%char = true.
Proof.
  unfold str_int. destruct (Z.to_int z) as [d|d].
  - destruct d; simpl; eauto.
  - simpl. eauto.
Qed.

Lemma py_str_head (v : value) :
  exists c s, py_str v = String c s
              /\ (((48 <=? PyStr.code c) && (PyStr.code c <=? 57))%nat
                  || (c =? "-")%char || (c =? "i")%char || (c =? "n")%char) = true.
Proof.
  destruct v as [z| | |]; [|simpl; eauto ..].
  destruct (str_int_head z) as (c & s & E & Hc). exists c, s. split; [exact E|].
  rewrite Hc. reflexivity.
Qed.

(** No number reads as a message of the parser. *)
Lemma py_str_no_capital (v : value) (c : ascii) (p : string) :
  (65 <=? PyStr.code c)%nat && (PyStr.code c <=? 90)%nat = true ->
  PyStr.startswith (py_str v) (String c p) = false.
Proof.
  intros Hc. destruct (py_str_head v) as (c' & s & E & Hc'). rewrite E.
  simpl. destruct (Ascii.eqb_spec c c') as [->|]; [|reflexivity].
  exfalso. unfold PyStr.code in *.
  apply andb_true_iff in Hc as [H1 H2]. apply Nat.leb_le in H1, H2.
  repeat rewrite orb_true_iff in Hc'. destruct Hc' as [[[H3|H3]|H3]|H3].
  - apply andb_true_iff in H3 as [H3 H4]. apply Nat.leb_le in H3, H4.
    revert H1 H2 H3 H4. generalize (nat_of_ascii c'). intros n; lia.
  - apply Ascii.eqb_eq in H3. subst c'. vm_compute in H1, H2. lia.
  - apply Ascii.eqb_eq in H3. subst c'. vm_compute in H1, H2. lia.
  - apply Ascii.eqb_eq in H3. subst c'. vm_compute in H1, H2. lia.
Qed.

(** ** The parser *)

Section ParserFacts.

Context {T : Type} `{Adapter T}.








(** *** Updates *)




(** *** Values *)





(** *** Arity *)



End ParserFacts.

(** ** The session *)

Section SessionFacts.

Context {T : Type} `{Adapter T}.









(** C9.  A line whose first word is [/reset], in any letter case, ends the
    turn with the loop continuing on a structure newly made with 16
    elements and an empty history. *)
Theorem reset_command (tree_type : string) (tree_class : Z -> T)
    (s : session) (cmd kw : string) (rest : list string) :
  PyStr.split (PyStr.strip cmd) = kw :: rest ->
  PyStr.lower kw = "/reset" ->
  parse_command cmd (s_tree s) tree_type = (s_tree s, Some "reset")
  /\ turn tree_type tree_class s (Line cmd)
     = Continue (mkSession (tree_class 16) []).
Proof.
  intros Hs Hk.
  assert (Hp : parse_command cmd (s_tree s) tree_type = (s_tree s, Some "reset")).
  { unfold parse_command. rewrite Hs, Hk. reflexivity. }
  split; [exact Hp|].
  unfold turn. rewrite Hp.
  destruct (PyStr.strip cmd) eqn:E; [|reflexivity].
  rewrite split_empty in Hs. discriminate.
Qed.

End SessionFacts.

(** ** The renderer *)

Section RendererFacts.

Context {T : Type} `{Adapter T}.


Lemma shown_as_str (v : value) :
  (if value_eqb v VInf then "inf"
   else if value_eqb v VNegInf then "-inf" else py_str v) = py_str v.
Proof. destruct v; reflexivity. Qed.




(** *** Failures *)

Lemma bind_ok {A B : Type} (r : result A) (k : A -> result B) (b : B) :
  (x <- r ;; k x) = Ok b -> exists a, r = Ok a /\ k a = Ok b.
Proof. destruct r as [a|e]; simpl; [eauto | discriminate]. Qed.

Lemma bind_raises {A B : Type} (r : result A) (k : A -> result B) (e : exn) :
  (x <- r ;; k x) = Raise e ->
  r = Raise e \/ exists a, r = Ok a /\ k a = Raise e.
Proof.
  destruct r as [a|e']; simpl; intros E.
  - right. exists a. split; [reflexivity | exact E].
  - left. injection E as <-. reflexivity.
Qed.

Lemma prod_str_raises (tree : T) (l r : Z) (e : exn) :
  raises_only_caught tree -> prod_str tree l r = Raise e -> caught e = true.
Proof.
  intros (_ & _ & Hprod & _) E. unfold prod_str in E.
  destruct (tree_prod tree l r) eqn:Ep; [discriminate|].
  injection E as <-. eauto.
Qed.

Lemma attr_prod_raises (tree : T) (l r : Z) (e : exn) :
  raises_only_caught tree ->
  (_ <- tree_prod_attr tree ;; prod_str tree l r) = Raise e -> caught e = true.
Proof.
  intros Hc E. apply bind_raises in E as [E|(a & _ & E)].
  - destruct Hc as (_ & Hattr & _). eauto.
  - eapply prod_str_raises; eauto.
Qed.

Lemma fallback_raises (tree : T) (level pos : Z) (e : exn) :
  raises_only_caught tree -> fallback tree level pos = Raise e -> caught e = true.
Proof.
  intros Hc. pose proof Hc as (Hlen & Hattr & _). unfold fallback.
  destruct (level =? 0).
  { intros E. apply bind_raises in E as [E|(a & _ & E)]; [eauto|].
    apply bind_raises in E as [E|(n & _ & E)]; [eauto|].
    eapply prod_str_raises; eauto. }
  destruct (level =? 1).
  { intros E. apply bind_raises in E as [E|(n & _ & E)]; [eauto|].
    destruct (pos =? 0); [eapply attr_prod_raises; eauto|].
    apply bind_raises in E as [E|(a & _ & E)]; [eauto|].
    apply bind_raises in E as [E|(n' & _ & E)]; [eauto|].
    eapply prod_str_raises; eauto. }
  destruct (level =? 2).
  { intros E. apply bind_raises in E as [E|(n & _ & E)]; [eauto|].
    eapply attr_prod_raises; eauto. }
  destruct (level =? 3); [|discriminate].
  intros E. apply bind_raises in E as [E|(n & _ & E)]; [eauto|].
  eapply attr_prod_raises; eauto.
Qed.

Lemma resolve_internal_raises (tree : T) (level pos : Z) (e : exn) :
  raises_only_caught tree ->
  resolve_internal tree level pos = Raise e -> caught e = true.
Proof.
  intros Hc E. pose proof Hc as (_ & _ & _ & Hdl & Hdg).
  unfold resolve_internal in E.
  apply bind_raises in E as [E|(r & _ & E)].
  - unfold introspect in E.
    destruct (has_data tree && has_offset tree); [|discriminate].
    apply bind_raises in E as [E|(n & _ & E)]; [eauto|].
    destruct (internal_idx level pos <? n); [|discriminate].
    apply bind_raises in E as [E|(v & _ & E)]; [eauto|discriminate].
  - destruct r; [discriminate|]. eapply fallback_raises; eauto.
Qed.

Lemma internal_cell_total (tree : T) (level pos : Z) :
  level <> 4 -> raises_only_caught tree ->
  exists s, get_tree_value (Some tree) level pos = Ok s.
Proof.
  intros Hl Hc. apply Z.eqb_neq in Hl. unfold get_tree_value. rewrite Hl.
  destruct (resolve_internal tree level pos) as [s|e] eqn:E; [eauto|].
  rewrite (resolve_internal_raises tree level pos e Hc E). eauto.
Qed.

(** C7, as the code has it.  At the internal levels a failure of class
    [AttributeError], [IndexError], [ValueError] or [TypeError] in resolving
    the value of a cell gives the cell ["?"], and a failure of another class
    leaves the renderer; so a structure whose reads raise nothing outside
    the four classes has a value for every internal cell.  At the leaf level
    a failure of the length or of the element read leaves the renderer. *)
Theorem internal_failure_degrades (tree : T) (level pos : Z) :
  (level <> 4 ->
   forall e, resolve_internal tree level pos = Raise e ->
             get_tree_value (Some tree) level pos
             = if caught e then Ok "?" else Raise e)
  /\ (level <> 4 -> raises_only_caught tree ->
      exists s, get_tree_value (Some tree) level pos = Ok s)
  /\ (forall e, tree_len tree = Raise e ->
                get_tree_value (Some tree) 4 pos = Raise e)
  /\ (forall n e, tree_len tree = Ok n -> pos < n ->
                  tree_getitem tree pos = Raise e ->
                  get_tree_value (Some tree) 4 pos = Raise e).
Proof.
  split; [|split; [|split]].
  - intros Hl e E. apply Z.eqb_neq in Hl.
    unfold get_tree_value. rewrite Hl, E. reflexivity.
  - apply internal_cell_total.
  - intros e E. unfold get_tree_value. simpl Z.eqb. cbv iota.
    rewrite E. reflexivity.
  - intros n e En Hlt E. unfold get_tree_value. simpl Z.eqb. cbv iota.
    rewrite En. cbn [bind].
    destruct (Z.ltb_spec pos n); [|lia]. rewrite E. reflexivity.
Qed.

(** *** The lines of the pyramid *)

Lemma cell_has_value (tree : option T) (level pos : Z) :
  renderable tree -> 0 <= pos ->
  exists s, get_tree_value tree level pos = Ok s.
Proof.
  intros Hr Hp. destruct tree as [t|]; [|simpl; eauto].
  destruct Hr as ((n & Hn & Hget) & Hc).
  destruct (Z.eq_dec level 4) as [->|Hl].
  - unfold get_tree_value. simpl Z.eqb. cbv iota. rewrite Hn. simpl.
    destruct (Z.ltb_spec pos n); [|eauto].
    destruct (Hget pos) as (v & ->); [lia|]. simpl. eauto.
  - exact (internal_cell_total t level pos Hl Hc).
Qed.

Lemma content_cells_ok (tree : option T) (level width : Z) (cells : list Z) :
  renderable tree -> Forall (fun i => 0 <= i) cells ->
  forall line, exists c,
    content_cells tree level width cells line = Ok c.
Proof.
  intros Hr Hcells. induction Hcells as [|i cells Hi _ IH]; intros line.
  - simpl. eauto.
  - simpl. destruct (cell_has_value tree level i Hr Hi) as (s & ->). simpl.
    apply IH.
Qed.

Lemma range_nonneg (n : Z) : Forall (fun i => 0 <= i) (range n).
Proof.
  unfold range. apply Forall_forall. intros i Hi.
  apply in_map_iff in Hi as (k & <- & _). lia.
Qed.

Lemma content_line_ok (tree : option T) (level : Z) :
  renderable tree ->
  exists c, content_line tree 0 level (2 ^ level) (cell_width_of level) = Ok c.
Proof.
  intros Hr. unfold content_line.
  apply content_cells_ok; [exact Hr | apply range_nonneg].
Qed.

Lemma draw_tree_structure_rows (tree : option T) :
  draw_tree_structure tree
  = (c0 <- content_line tree 0 0 1 (cell_width_of 0) ;;
     c1 <- content_line tree 0 1 2 (cell_width_of 1) ;;
     c2 <- content_line tree 0 2 4 (cell_width_of 2) ;;
     c3 <- content_line tree 0 3 8 (cell_width_of 3) ;;
     c4 <- content_line tree 0 4 16 (cell_width_of 4) ;;
     Ok (pyramid c0 c1 c2 c3 c4)).
Proof.
  unfold draw_tree_structure.
  change (enumerate levels) with [(0, 1); (1, 2); (2, 4); (3, 8); (4, 16)].
  cbn [draw_levels]. unfold draw_level.
  change (0 =? 0) with true. change (1 =? 0) with false.
  change (2 =? 0) with false. change (3 =? 0) with false.
  change (4 =? 0) with false. cbv iota.
  destruct (content_line tree 0 0 1 _) as [c0|]; [cbn [bind]|reflexivity].
  destruct (content_line tree 0 1 2 _) as [c1|]; [cbn [bind]|reflexivity].
  destruct (content_line tree 0 2 4 _) as [c2|]; [cbn [bind]|reflexivity].
  destruct (content_line tree 0 3 8 _) as [c3|]; [cbn [bind]|reflexivity].
  destruct (content_line tree 0 4 16 _) as [c4|]; [cbn [bind]|reflexivity].
  reflexivity.
Qed.


End RendererFacts.

(** *** The width of a row *)

Lemma visible_width_app (b : bool) (s1 s2 : string) :
  visible_width_from b (s1 ++ s2)
  = visible_width_from b s1 + visible_width_from (escape_after b s1) s2.
Proof.
  revert b. induction s1 as [|c s1 IH]; intros b; simpl.
  - reflexivity.
  - destruct b; [apply IH|].
    destruct (c =? ESC)%char; [apply IH|]. rewrite IH. lia.
Qed.

Lemma escape_after_app (b : bool) (s1 s2 : string) :
  escape_after b (s1 ++ s2) = escape_after (escape_after b s1) s2.
Proof.
  revert b. induction s1 as [|c s1 IH]; intros b; simpl.
  - reflexivity.
  - destruct b; [apply IH|]. destruct (c =? ESC)%char; apply IH.
Qed.

Lemma plain_width (s : string) :
  plain s = true ->
  visible_width_from false s = PyStr.len s /\ escape_after false s = false.
Proof.
  unfold PyStr.len. induction s as [|c s IH]; simpl String.length; simpl plain.
  - intros _. split; reflexivity.
  - rewrite !andb_true_iff. intros ((Hesc & Hc) & Hs).
    destruct (IH Hs) as (IHw & IHe).
    apply negb_true_iff in Hesc. cbn [visible_width_from escape_after].
    rewrite Hesc, IHw, IHe. unfold is_continuation.
    apply Nat.ltb_lt in Hc.
    destruct (Nat.leb_spec 128 (PyStr.code c)); [lia|]. cbn [andb].
    split; [lia|reflexivity].
Qed.

Lemma plain_app (s1 s2 : string) :
  plain s1 = true -> plain s2 = true -> plain (s1 ++ s2) = true.
Proof.
  induction s1 as [|c s1 IH]; simpl; [auto|].
  rewrite !andb_true_iff. intros ((? & ?) & ?) ?. auto.
Qed.

Lemma spaces_succ (k : nat) :
  concat EmptyString (repeat " " (S k))
  = String " " (concat EmptyString (repeat " " k)).
Proof. destruct k; reflexivity. Qed.

Lemma spaces_width (n : Z) :
  plain (times " " n) = true /\ PyStr.len (times " " n) = Z.max 0 n.
Proof.
  unfold times, PyStr.len.
  assert (Hn : forall k : nat,
             plain (concat EmptyString (repeat " " k)) = true
             /\ String.length (concat EmptyString (repeat " " k)) = k).
  { induction k as [|k (IHp & IHl)]; [split; reflexivity|].
    rewrite spaces_succ. cbn [plain String.length]. rewrite IHp, IHl.
    split; reflexivity. }
  destruct (Hn (Z.to_nat n)) as (Hp & Hl). split; [exact Hp|]. rewrite Hl. lia.
Qed.

Lemma uint_plain (d : Decimal.uint) : plain (NilZero.string_of_uint d) = true.
Proof.
  unfold NilZero.string_of_uint.
  destruct d; try reflexivity; simpl;
    match goal with
    | |- plain (NilEmpty.string_of_uint ?d) = true =>
        induction d; simpl; auto
    end.
Qed.

Lemma py_str_plain (v : value) : plain (py_str v) = true.
Proof.
  destruct v as [z| | |]; try reflexivity.
  unfold py_str, str_int, NilZero.string_of_int.
  destruct (Z.to_int z) as [d|d]; [apply uint_plain|].
  simpl. apply uint_plain.
Qed.

Section RowWidth.

Context {T : Type} `{Adapter T}.

Lemma bar_width :
  visible_width_from false (border "│") = 1
  /\ escape_after false (border "│") = false.
Proof. split; reflexivity. Qed.

Lemma content_cell_width (cell_width : Z) (value : string) :
  plain value = true -> PyStr.len value <= cell_width - 1 ->
  visible_width_from false (content_cell cell_width value) = cell_width
  /\ escape_after false (content_cell cell_width value) = false.
Proof.
  intros Hp Hlen. unfold content_cell.
  set (l := (cell_width - 1 - PyStr.len value) / 2).
  set (r := cell_width - 1 - PyStr.len value - l).
  assert (Hl : 0 <= l) by (apply Z.div_pos; lia).
  assert (Hr : 0 <= r).
  { unfold r, l.
    pose proof (Z.mul_div_le (cell_width - 1 - PyStr.len value) 2). lia. }
  destruct (spaces_width l) as (Hpl & Hll).
  destruct (spaces_width r) as (Hpr & Hlr).
  destruct (plain_width _ Hpl) as (Wl & El).
  destruct (plain_width _ Hpr) as (Wr & Er).
  destruct (plain_width _ Hp) as (Wv & Ev).
  destruct bar_width as (Wb & Eb).
  rewrite !visible_width_app, !escape_after_app.
  rewrite El, Ev, Er, Wl, Wv, Wr, Wb, Eb, Hll, Hlr.
  split; [unfold r; lia | reflexivity].
Qed.

Lemma prod_str_plain (t : T) (l r : Z) (s : string) :
  prod_str t l r = Ok s -> plain s = true.
Proof.
  intros E. apply bind_ok in E as (v & _ & E). injection E as <-.
  apply py_str_plain.
Qed.

Lemma attr_prod_plain (t : T) (l r : Z) (s : string) :
  (_ <- tree_prod_attr t ;; prod_str t l r) = Ok s -> plain s = true.
Proof.
  intros E. apply bind_ok in E as (u & _ & E). exact (prod_str_plain t l r s E).
Qed.

Lemma fallback_plain (t : T) (level pos : Z) (s : string) :
  fallback t level pos = Ok s -> plain s = true.
Proof.
  unfold fallback.
  destruct (level =? 0).
  { intros E. apply bind_ok in E as (u & _ & E).
    apply bind_ok in E as (n & _ & E). exact (prod_str_plain _ _ _ _ E). }
  destruct (level =? 1).
  { intros E. apply bind_ok in E as (n & _ & E).
    destruct (pos =? 0); [exact (attr_prod_plain _ _ _ _ E)|].
    apply bind_ok in E as (u & _ & E). apply bind_ok in E as (n' & _ & E).
    exact (prod_str_plain _ _ _ _ E). }
  destruct (level =? 2).
  { intros E. apply bind_ok in E as (n & _ & E).
    exact (attr_prod_plain _ _ _ _ E). }
  destruct (level =? 3).
  { intros E. apply bind_ok in E as (n & _ & E).
    exact (attr_prod_plain _ _ _ _ E). }
  intros E. injection E as <-. reflexivity.
Qed.

Lemma introspect_plain (t : T) (level pos : Z) (s : string) :
  introspect t level pos = Ok (Some s) -> plain s = true.
Proof.
  unfold introspect.
  destruct (has_data t && has_offset t); [|discriminate].
  intros E. apply bind_ok in E as (n & _ & E).
  destruct (internal_idx level pos <? n); [|discriminate].
  apply bind_ok in E as (v & _ & E). injection E as <-.
  rewrite shown_as_str. apply py_str_plain.
Qed.

Lemma get_tree_value_plain (tree : option T) (level pos : Z) (s : string) :
  get_tree_value tree level pos = Ok s -> plain s = true.
Proof.
  unfold get_tree_value. destruct tree as [t|].
  2:{ intros E. injection E as <-. reflexivity. }
  destruct (level =? 4).
  - intros E. apply bind_ok in E as (n & _ & E).
    destruct (pos <? n).
    + apply bind_ok in E as (v & _ & E). injection E as <-.
      apply py_str_plain.
    + injection E as <-. reflexivity.
  - destruct (resolve_internal t level pos) as [s'|e] eqn:E.
    2:{ destruct (caught e); [|discriminate].
        intros E'. injection E' as <-. reflexivity. }
    intros E'. injection E' as <-.
    unfold resolve_internal in E. apply bind_ok in E as (r & Er & E).
    destruct r as [s''|].
    + injection E as <-. exact (introspect_plain t level pos s'' Er).
    + exact (fallback_plain t level pos s' E).
Qed.

Lemma content_cells_width (tree : option T) (level cell_width : Z)
    (cells : list Z) :
  (forall i s, In i cells -> get_tree_value tree level i = Ok s ->
               PyStr.len s <= cell_width - 1) ->
  forall line c,
    escape_after false line = false ->
    content_cells tree level cell_width cells line = Ok c ->
    visible_width_from false c
    = visible_width_from false line + Z.of_nat (List.length cells) * cell_width.
Proof.
  induction cells as [|i cells IH]; intros Hfit line c Hline E.
  - simpl in E. injection E as <-. simpl. lia.
  - cbn [content_cells] in E.
    destruct (get_tree_value tree level i) as [s|] eqn:Ev; [|discriminate].
    cbn [bind] in E.
    destruct (content_cell_width cell_width s) as (Wc & Ec).
    { exact (get_tree_value_plain tree level i s Ev). }
    { apply (Hfit i s); [left; reflexivity | exact Ev]. }
    rewrite (IH (fun j s' Hj => Hfit j s' (or_intror Hj)) _ c) by
      first [rewrite escape_after_app, Hline; exact Ec | exact E].
    rewrite visible_width_app, Hline, Wc. simpl List.length. lia.
Qed.

Lemma range_bounds (n i : Z) : In i (range n) -> 0 <= i < n.
Proof.
  unfold range. intros Hi. apply in_map_iff in Hi as (k & <- & Hk).
  apply in_seq in Hk. lia.
Qed.

Lemma range_length (n : Z) : 0 <= n -> Z.of_nat (List.length (range n)) = n.
Proof.
  intros Hn. unfold range. rewrite length_map, length_seq. lia.
Qed.

Lemma level_cells (level : Z) :
  0 <= level <= 4 ->
  cell_width_of level = LEAF_CELL_WIDTH * 2 ^ (4 - level)
  /\ 2 ^ level * cell_width_of level = 16 * LEAF_CELL_WIDTH.
Proof.
  intros Hl.
  assert (Hc : level = 0 \/ level = 1 \/ level = 2 \/ level = 3 \/ level = 4)
    by lia.
  destruct Hc as [-> | [-> | [-> | [-> | ->]]]]; split; reflexivity.
Qed.

(** The content row of a level spans one column more than the sixteen leaf
    cells, provided every value of the row fits the inside of its cell. *)
Theorem content_row_width (tree : option T) (level : Z) (c : string) :
  0 <= level <= 4 ->
  content_line tree 0 level (2 ^ level) (cell_width_of level) = Ok c ->
  (forall i s, 0 <= i < 2 ^ level -> get_tree_value tree level i = Ok s ->
               PyStr.len s <= cell_width_of level - 1) ->
  visible_width c = 1 + 16 * LEAF_CELL_WIDTH.
Proof.
  intros Hl E Hfit. unfold content_line in E. unfold visible_width.
  assert (Hstart : escape_after false (times " " 0 ++ border "│") = false)
    by reflexivity.
  rewrite (content_cells_width tree level (cell_width_of level)
             (range (2 ^ level))
             (fun i s Hi => Hfit i s (range_bounds _ i Hi)) _ c Hstart E).
  rewrite range_length by (apply Z.pow_nonneg; lia).
  destruct (level_cells level Hl) as (_ & ->). reflexivity.
Qed.

End RowWidth.

(** ** Runs *)


Lemma SegTree_aggregate_raises (s : SegTree.t) (l r : Z) (e : exn) :
  SegTree.aggregate s l r = Raise e -> caught e = true.
Proof.
  unfold SegTree.aggregate. destruct (_ && _); [discriminate|].
  intros E. injection E as <-. reflexivity.
Qed.

Lemma SegTree_get_raises (s : SegTree.t) (i : Z) (e : exn) :
  SegTree.get s i = Raise e -> caught e = true.
Proof.
  unfold SegTree.get. destruct (_ && _); [discriminate|].
  intros E. injection E as <-. reflexivity.
Qed.

Lemma SegTree_renderable (s : SegTree.t) : renderable (Some s).
Proof.
  split.
  - exists (SegTree.length s). split; [reflexivity|].
    intros i Hi. simpl. unfold SegTree.get.
    destruct (Z.leb_spec 0 i); [|lia].
    destruct (Z.ltb_spec i (SegTree.length s)); [|lia]. simpl. eauto.
  - repeat split; simpl.
    + discriminate.
    + discriminate.
    + apply SegTree_aggregate_raises.
    + intros e. unfold SegTree.node_count.
      destruct (SegTree.introspection s); [discriminate|].
      intros E. injection E as <-. reflexivity.
    + intros i e. unfold SegTree.node.
      destruct (SegTree.introspection s).
      * destruct (_ && _);
          [apply SegTree_aggregate_raises | apply SegTree_get_raises].
      * intros E. injection E as <-. reflexivity.
Qed.

(** The scenario of the sum variant: two silent updates, a query over an
    infinity, a silent increment, a query of one element. *)
Example sum_scenario :
  interactive_mode "sum" (SegTree.create SegTree.Sum true)
    [Line "s 0 10"; Line "s 3 inf"; Line "q 0 4"; Line "a 0 5"; Line "q 0 1"]
  = (Blocked
       (mkSession
          (SegTree.mk SegTree.Sum
             ([VInt 15; VInt 0; VInt 0; VInf] ++ repeat (VInt 0) 12) true)
          ["> s 0 10"; "> s 3 inf"; "> q 0 4"; "inf"; "> a 0 5"; "> q 0 1"; "15"]),
     []).
Proof. vm_compute. reflexivity. Qed.

(** The scenario of the min variant *)
Example min_scenario :
  interactive_mode "min" (SegTree.create SegTree.Min false)
    [Line "s 2 -inf"; Line "q 0 16"; Line "quit"; Line "q 0 1"]
  = (Quit, [Line "q 0 1"])
  /\ interactive_mode "min" (SegTree.create SegTree.Min false)
       [Line "s 2 -inf"; Line "q 0 16"]
     = (Blocked
          (mkSession
             (SegTree.mk SegTree.Min
                ([VInt 0; VInt 0; VNegInf] ++ repeat (VInt 0) 13) false)
             ["> s 2 -inf"; "> q 0 16"; "-inf"]),
        []).
Proof. split; vm_compute; reflexivity. Qed.

(** A query after a reset sees the new structure, and the history starts
    anew; the line after [/help] goes to the help screen. *)
Example reset_scenario :
  interactive_mode "sum" (SegTree.create SegTree.Sum true)
    [Line "s 0 10"; Line "/reset"; Line "q 0 16"; Line "/help"; Line "q 0 1"]
  = (Blocked (mkSession fresh ["> q 0 16"; "0"]), []).
Proof. vm_compute. reflexivity. Qed.









(** C7 at work: the root cell of an object without
    the operations of a structure *)
Lemma internal_failure_degrades_witness :
  get_tree_value (Some bare) 0 0 = Ok "?".
Proof.
  destruct (internal_failure_degrades bare 0 0) as (Hv & _ & _).
  apply (Hv ltac:(lia) (SegTree.no_attribute "prod")). reflexivity.
Defined.

(** C7 fails at the leaf level, and for other classes of exception: the
    failure leaves [get_tree_value] and the renderer. *)
Lemma failure_leaves_renderer :
  get_tree_value (Some inconsistent) 4 0 = Raise SegTree.out_of_range
  /\ draw_tree_structure (Some inconsistent) = Raise SegTree.out_of_range
  /\ get_tree_value (Some overflowing) 0 0 = Raise int_too_large
  /\ draw_tree_structure (Some overflowing) = Raise int_too_large
  /\ draw_tree_structure (Some bare)
     = Raise (mkExn TypeError "object of type 'object' has no len()").
Proof. vm_compute. repeat split. Qed.

(** C8 at [s 0 100000000000]: the command is silent, the leaf shows its
    twelve digits, and the content row of the leaves spans one column more
    than the content row of the root. *)
Theorem long_value_widens_leaf_row :
  let tree := fst (parse_command "s 0 100000000000" fresh "sum") in
  snd (parse_command "s 0 100000000000" fresh "sum") = None
  /\ get_tree_value (Some tree) 4 0 = Ok "100000000000"
  /\ exists rows,
       draw_tree_structure (Some tree) = Ok rows
       /\ content_line (Some tree) 0 0 1 (cell_width_of 0) = Ok (nth 2 rows EmptyString)
       /\ content_line (Some tree) 0 4 16 (cell_width_of 4) = Ok (nth 18 rows EmptyString)
       /\ visible_width (nth 2 rows EmptyString) = 193
       /\ visible_width (nth 18 rows EmptyString) = 194.
Proof.
  split; [reflexivity|]. split; [reflexivity|].
  eexists. split; [vm_compute; reflexivity|].
  vm_compute. repeat split.
Qed.

(** C9 at work: [/reset] after two commands *)
Lemma reset_command_witness :
  turn "sum" (SegTree.create SegTree.Sum true)
    (mkSession (fst (SegTree.set fresh 0 (VInt 10))) ["> s 0 10"; "> q 0 1"; "10"])
    (Line "/Reset")
  = Continue (mkSession fresh []).
Proof.
  apply (reset_command "sum" (SegTree.create SegTree.Sum true)
           (mkSession (fst (SegTree.set fresh 0 (VInt 10)))
              ["> s 0 10"; "> q 0 1"; "10"]) "/Reset" "/Reset" []);
    reflexivity.
Defined.



(** * Further properties *)

(** ** Numbers written and read *)


















(** ** What a line does to the session *)

Section LineFacts.

Context {T : Type} `{Adapter T}.

Lemma lstrip_blank (s : string) : blank s = true -> PyStr.lstrip s = EmptyString.
Proof.
  induction s as [|c s IH]; simpl; [reflexivity|].
  rewrite andb_true_iff. intros (-> & Hs). exact (IH Hs).
Qed.

(** A line of white space only, or without any character, is passed over:
    the parser returns nothing, and the turn leaves the structure and the
    history as they are. *)
Theorem blank_line_ignored (tree_type : string) (tree_class : Z -> T)
    (s : session) (cmd : string) :
  blank cmd = true ->
  parse_command cmd (s_tree s) tree_type = (s_tree s, None)
  /\ turn tree_type tree_class s (Line cmd) = Continue s.
Proof.
  intros Hb.
  assert (Hs : PyStr.strip cmd = EmptyString).
  { unfold PyStr.strip. rewrite (lstrip_blank cmd Hb). reflexivity. }
  unfold parse_command, turn. rewrite Hs. split; reflexivity.
Qed.

(** The letter case of the command word does not count: two lines whose
    first words agree in lower case and whose arguments are the same do the
    same to the structure and return the same. *)
Theorem command_word_case (cmd1 cmd2 : string) (tree : T) (tree_type : string)
    (kw1 kw2 : string) (args : list string) :
  PyStr.split (PyStr.strip cmd1) = kw1 :: args ->
  PyStr.split (PyStr.strip cmd2) = kw2 :: args ->
  PyStr.lower kw1 = PyStr.lower kw2 ->
  parse_command cmd1 tree tree_type = parse_command cmd2 tree tree_type.
Proof.
  intros H1 H2 Hk. unfold parse_command. rewrite H1, H2, Hk.
  destruct (PyStr.startswith (PyStr.lower kw2) "/"); [reflexivity|].
  reflexivity.
Qed.


















End LineFacts.

(** ** What the parser never returns *)

Section Unreachable.

Context {T : Type} `{Adapter T}.

Lemma raised_valid (e : exn) : is_invalid_arguments (handle (Raise e)) = false.
Proof. unfold handle. destruct (exn_cls e); reflexivity. Qed.

Lemma index_error_valid (tree : T) (index : Z) :
  is_invalid_arguments (handle (s <- index_error tree index ;; Ok (Some s)))
  = false.
Proof.
  unfold index_error.
  destruct (tree_len tree) as [n|e]; [reflexivity | apply raised_valid].
Qed.

Lemma do_set_valid (tree : T) (parts : list string) :
  is_invalid_arguments (handle (snd (do_set tree parts))) = false.
Proof.
  unfold do_set.
  destruct (py_int _) as [index|e]; [|apply raised_valid].
  destruct (parse_value _) as [v|e]; [|apply raised_valid].
  destruct (index_in_range tree index) as [[|]|e];
    [|apply index_error_valid|apply raised_valid].
  destruct (tree_setitem tree index v) as [tree' [e|]];
    [apply raised_valid | reflexivity].
Qed.

Lemma do_add_valid (tree : T) (parts : list string) :
  is_invalid_arguments (handle (snd (do_add tree parts))) = false.
Proof.
  unfold do_add.
  destruct (py_int _) as [index|e]; [|apply raised_valid].
  destruct (parse_value _) as [v|e]; [|apply raised_valid].
  destruct (index_in_range tree index) as [[|]|e];
    [|apply index_error_valid|apply raised_valid].
  destruct (old <- tree_getitem tree index ;; py_add old v) as [new|e];
    [|apply raised_valid].
  destruct (tree_setitem tree index new) as [tree' [e|]];
    [apply raised_valid | reflexivity].
Qed.

Lemma aggregate_valid (r : result value) :
  is_invalid_arguments (handle (v <- r ;; Ok (Some (py_str v)))) = false.
Proof.
  destruct r as [v|e]; [|apply raised_valid].
  cbn [bind handle is_invalid_arguments].
  apply py_str_no_capital. reflexivity.
Qed.

Lemma do_query_valid (tree : T) (tree_type : string) (parts : list string) :
  is_invalid_arguments (handle (do_query tree tree_type parts)) = false.
Proof.
  unfold do_query.
  destruct (py_int _) as [left|e]; cbn [bind]; [|apply raised_valid].
  destruct (py_int _) as [right|e]; cbn [bind]; [|apply raised_valid].
  destruct (range_in_bounds tree left right) as [[|]|e]; cbn [bind];
    [| |apply raised_valid].
  - destruct (_ =? _)%string; [apply aggregate_valid|].
    destruct (_ =? _)%string; [apply aggregate_valid|].
    destruct (_ =? _)%string; [apply aggregate_valid|reflexivity].
  - unfold range_error.
    destruct (tree_len tree) as [n|e]; [reflexivity | apply raised_valid].
Qed.

Lemma snd_handled (x : T * result (option string)) :
  snd (let '(tree', r) := x in (tree', handle r)) = handle (snd x).
Proof. destruct x. reflexivity. Qed.

(** The messages on invalid arguments are never returned: with two arguments
    the update and query branches are taken before the branch that holds
    them, and with another count it gives the usage. *)
Theorem invalid_arguments_unreachable (cmd : string) (tree : T)
    (tree_type : string) :
  is_invalid_arguments (snd (parse_command cmd tree tree_type)) = false.
Proof.
  unfold parse_command.
  destruct (PyStr.split (PyStr.strip cmd)) as [|p0 rest]; [reflexivity|].
  destruct (PyStr.startswith (PyStr.lower p0) "/").
  { unfold slash_command. cbn [snd].
    repeat (destruct (_ =? _)%string; [reflexivity|]). reflexivity. }
  rewrite snd_handled. unfold try_body, do_other, PyStr.mem.
  generalize (do_set_valid tree (p0 :: rest)) (do_add_valid tree (p0 :: rest))
    (do_query_valid tree tree_type (p0 :: rest)).
  generalize (do_set tree (p0 :: rest)) (do_add tree (p0 :: rest))
    (do_query tree tree_type (p0 :: rest)).
  intros set_result add_result query_result Hset Hadd Hquery.
  destruct (Nat.eqb (List.length (p0 :: rest)) 3);
    destruct (PyStr.lower p0 =? "set")%string,
             (PyStr.lower p0 =? "s")%string,
             (PyStr.lower p0 =? "add")%string,
             (PyStr.lower p0 =? "a")%string,
             (PyStr.lower p0 =? "query")%string,
             (PyStr.lower p0 =? "q")%string,
             (PyStr.lower p0 =? "quit")%string,
             (PyStr.lower p0 =? "exit")%string;
    cbn [andb orb negb fst snd]; try assumption; reflexivity.
Qed.

End Unreachable.

(** ** The run of a session and of the program *)

Section RunFacts.

Context {T : Type} `{Adapter T}.

Lemma draw_returns (tree : option T) :
  renderable tree -> exists lines, draw_tree_structure tree = Ok lines.
Proof.
  intros Hr. rewrite draw_tree_structure_rows.
  destruct (content_line_ok tree 0 Hr) as (c0 & H0).
  destruct (content_line_ok tree 1 Hr) as (c1 & H1).
  destruct (content_line_ok tree 2 Hr) as (c2 & H2).
  destruct (content_line_ok tree 3 Hr) as (c3 & H3).
  destruct (content_line_ok tree 4 Hr) as (c4 & H4).
  change (2 ^ 0) with 1 in H0. change (2 ^ 1) with 2 in H1.
  change (2 ^ 2) with 4 in H2. change (2 ^ 3) with 8 in H3.
  change (2 ^ 4) with 16 in H4.
  rewrite H0, H1, H2, H3, H4. cbn [bind]. eauto.
Qed.

Lemma display_returns (commands : option (list string)) (tree : option T) :
  renderable tree -> exists frame, display_split_screen commands tree = Ok frame.
Proof.
  intros Hr. unfold display_split_screen.
  destruct (draw_returns tree Hr) as (lines & ->). cbn [bind]. eauto.
Qed.

Lemma display_raises (commands : option (list string)) (tree : option T)
    (e : exn) :
  display_split_screen commands tree = Raise e <-> draw_tree_structure tree = Raise e.
Proof.
  unfold display_split_screen.
  destruct (draw_tree_structure tree) as [lines|e']; cbn [bind];
    split; intros E; try discriminate E; exact E.
Qed.

Section OneSession.

Variable tree_type : string.
Variable tree_class : Z -> T.





(** A structure the renderer fails on ends the session before a line is
    read, with the exception of the renderer. *)
Theorem failed_display_ends_session (s : session) (events : list input_event)
    (e : exn) :
  draw_tree_structure (Some (s_tree s)) = Raise e ->
  interactive_run tree_type tree_class s events = (Raised e, events).
Proof.
  intros E. apply (display_raises (Some (s_commands s))) in E.
  destruct events; cbn [interactive_run]; rewrite E; reflexivity.
Qed.

Lemma run_uses_inputs_upto (n : nat) :
  forall events, (List.length events <= n)%nat ->
  forall s,
    (List.length (snd (interactive_run tree_type tree_class s events))
     <= List.length events)%nat.
Proof.
  induction n as [|n IH]; intros events Hlen s.
  - destruct events; [|simpl in Hlen; lia]. cbn [interactive_run].
    destruct (display_split_screen _ _); simpl; lia.
  - destruct events as [|ev events]; cbn [interactive_run];
      (destruct (display_split_screen _ _); [|simpl; lia]); [simpl; lia|].
    simpl in Hlen.
    destruct (turn tree_type tree_class s ev) as [s0| |]; [|simpl; lia..].
    destruct (shows_help tree_type s ev).
    + destruct events as [|ev2 events]; [simpl; lia|].
      pose proof (IH events ltac:(simpl in Hlen; lia) s0). simpl. lia.
    + pose proof (IH events ltac:(lia) s0). simpl. lia.
Qed.

End OneSession.

Lemma run_uses_inputs (tree_type : string) (tree_class : Z -> T)
    (events : list input_event) :
  (List.length (snd (interactive_mode tree_type tree_class events))
   <= List.length events)%nat.
Proof.
  unfold interactive_mode.
  apply (run_uses_inputs_upto tree_type tree_class (List.length events)).
  reflexivity.
Qed.

End RunFacts.

Section MainFacts.

Context {T : Type} `{Adapter T}.

Variables SumSegmentTree MinSegmentTree MaxSegmentTree : Z -> T.

Local Abbreviation select :=
  (select_tree_type SumSegmentTree MinSegmentTree MaxSegmentTree).
Local Abbreviation loop := (main_loop SumSegmentTree MinSegmentTree MaxSegmentTree).
Local Abbreviation program := (main SumSegmentTree MinSegmentTree MaxSegmentTree).

Lemma select_skips (pre events : list input_event) :
  Forall (fun ev => passed_over ev = true) pre ->
  select (pre ++ events) = select events.
Proof.
  induction 1 as [|ev pre Hev _ IH]; [reflexivity|].
  destruct ev as [choice|]; [|discriminate Hev].
  simpl in Hev. apply negb_true_iff in Hev.
  rewrite !orb_false_iff in Hev. destruct Hev as (E1 & E2 & E3 & _).
  simpl. rewrite E1, E2, E3. exact IH.
Qed.

Lemma select_uses_input (events rest : list input_event) (tree_type : string)
    (tree_class : Z -> T) :
  select events = (Selected tree_type tree_class, rest) ->
  (List.length rest < List.length events)%nat.
Proof.
  induction events as [|ev events IH]; simpl; [discriminate|].
  destruct ev as [choice|]; [|discriminate].
  destruct (choice =? "1")%string;
    [intros E; injection E; intros; subst; lia|].
  destruct (choice =? "2")%string;
    [intros E; injection E; intros; subst; lia|].
  destruct (choice =? "3")%string;
    [intros E; injection E; intros; subst; lia|].
  intros E. specialize (IH E). lia.
Qed.

Lemma fuel_enough (fuel : nat) :
  forall events, (List.length events < fuel)%nat -> loop fuel events <> OutOfFuel.
Proof.
  induction fuel as [|fuel IH]; intros events Hlen; [lia|].
  cbn [main_loop].
  destruct (select_tree_type _ _ _ events) as [[tree_type tree_class| |] rest] eqn:Es;
    try discriminate.
  apply select_uses_input in Es.
  destruct rest as [|[l|] rest]; try discriminate.
  pose proof (run_uses_inputs tree_type tree_class rest) as Hrest.
  destruct (interactive_mode tree_type tree_class rest) as [[| |e|s] rest'];
    try discriminate.
  apply IH. simpl in *. lia.
Qed.

Lemma fuel_agrees (fuel1 : nat) :
  forall fuel2 events,
    (List.length events < fuel1)%nat -> (List.length events < fuel2)%nat ->
    loop fuel1 events = loop fuel2 events.
Proof.
  induction fuel1 as [|fuel1 IH]; intros fuel2 events H1 H2; [lia|].
  destruct fuel2 as [|fuel2]; [lia|]. cbn [main_loop].
  destruct (select_tree_type _ _ _ events) as [[tree_type tree_class| |] rest] eqn:Es;
    try reflexivity.
  apply select_uses_input in Es.
  destruct rest as [|[l|] rest]; try reflexivity.
  pose proof (run_uses_inputs tree_type tree_class rest) as Hrest.
  destruct (interactive_mode tree_type tree_class rest) as [[| |e|s] rest'];
    try reflexivity.
  apply IH; simpl in *; lia.
Qed.

(** Every round of the loop of [main] reads a choice and a confirmation, so
    on a list of inputs the program is through after as many rounds as
    there are inputs: more rounds change nothing, and it has then returned,
    exited, failed, or waits for input. *)
Theorem main_is_through (fuel : nat) (events : list input_event) :
  (List.length events < fuel)%nat ->
  loop fuel events = program events /\ program events <> OutOfFuel.
Proof.
  intros Hlen. unfold main. split.
  - apply fuel_agrees; [exact Hlen | lia].
  - apply fuel_enough. lia.
Qed.

(** The menu passes over every line that is not exactly [1], [2] or [3]: the
    first input that is one of them, or an interrupt, decides. *)
Theorem menu_passes_over (pre events : list input_event) :
  Forall (fun ev => passed_over ev = true) pre ->
  select (pre ++ events) = select events
  /\ program (pre ++ Interrupt :: events) = SysExit.
Proof.
  intros Hpre. split; [exact (select_skips pre events Hpre)|].
  unfold main. cbn [main_loop].
  rewrite (select_skips pre _ Hpre). reflexivity.
Qed.

(** When a session ends with [/home] the program goes on as if it were
    started on the inputs that are left: nothing of the session is kept. *)
Theorem home_starts_anew (events rest after : list input_event)
    (tree_type confirm : string) (tree_class : Z -> T) :
  select events = (Selected tree_type tree_class, Line confirm :: rest) ->
  interactive_mode tree_type tree_class rest = (Home, after) ->
  program events = program after.
Proof.
  intros Es Er. unfold main at 1. cbn [main_loop].
  rewrite Es, Er.
  pose proof (select_uses_input _ _ _ _ Es) as H1.
  pose proof (run_uses_inputs tree_type tree_class rest) as H2.
  rewrite Er in H2. simpl in H1, H2.
  apply (fuel_agrees (List.length events) (S (List.length after)) after); lia.
Qed.

(** An interrupt at the confirmation that follows the choice is not caught:
    it leaves [main] as an exception.  In the session, whose first structure
    can be drawn, it ends the program in the regular way. *)
Theorem interrupt_after_choice (pre rest : list input_event)
    (choice : string) :
  Forall (fun ev => passed_over ev = true) pre ->
  In choice ["1"; "2"; "3"] ->
  program (pre ++ Line choice :: Interrupt :: rest) = UncaughtInterrupt
  /\ ((forall t : T, renderable (Some t)) ->
      forall confirm,
        program (pre ++ Line choice :: Line confirm :: Interrupt :: rest)
        = MainReturns).
Proof.
  intros Hpre Hc. unfold main. cbn [main_loop].
  split.
  - rewrite (select_skips pre _ Hpre).
    destruct Hc as [<-|[<-|[<-|[]]]]; reflexivity.
  - intros Hall confirm.
    assert (Hrun : forall tree_type tree_class,
               interactive_mode tree_type tree_class (Interrupt :: rest)
               = (Quit, rest)).
    { intros tree_type tree_class. unfold interactive_mode.
      cbn [interactive_run].
      destruct (display_returns (Some []) (Some (tree_class 16)) (Hall _))
        as (frame & E).
      cbn [s_commands s_tree]. rewrite E. reflexivity. }
    rewrite (select_skips pre _ Hpre).
    destruct Hc as [<-|[<-|[<-|[]]]].
    + change (select (Line "1" :: Line confirm :: Interrupt :: rest))
        with (Selected "sum" SumSegmentTree, Line confirm :: Interrupt :: rest).
      cbv iota. rewrite Hrun. reflexivity.
    + change (select (Line "2" :: Line confirm :: Interrupt :: rest))
        with (Selected "min" MinSegmentTree, Line confirm :: Interrupt :: rest).
      cbv iota. rewrite Hrun. reflexivity.
    + change (select (Line "3" :: Line confirm :: Interrupt :: rest))
        with (Selected "max" MaxSegmentTree, Line confirm :: Interrupt :: rest).
      cbv iota. rewrite Hrun. reflexivity.
Qed.

End MainFacts.

(** ** The frame of the pyramid *)

Lemma append_empty (s : string) : s ++ EmptyString = s.
Proof. induction s as [|c s IH]; simpl; [reflexivity | rewrite IH; reflexivity]. Qed.

Lemma times_succ (s : string) (k : nat) :
  concat EmptyString (repeat s (S k)) = s ++ concat EmptyString (repeat s k).
Proof. destruct k; simpl; [rewrite append_empty|]; reflexivity. Qed.

(** [s * k] of a string that closes its colour sequences *)
Lemma times_width (s : string) (k : Z) :
  escape_after false s = false ->
  visible_width_from false (times s k) = Z.max 0 k * visible_width_from false s
  /\ escape_after false (times s k) = false.
Proof.
  intros Hs. unfold times.
  assert (Hn : forall n : nat,
             visible_width_from false (concat EmptyString (repeat s n))
             = Z.of_nat n * visible_width_from false s
             /\ escape_after false (concat EmptyString (repeat s n)) = false).
  { induction n as [|n (IHw & IHe)]; [split; reflexivity|].
    rewrite times_succ, visible_width_app, escape_after_app, Hs, IHw, IHe.
    split; [lia | reflexivity]. }
  destruct (Hn (Z.to_nat k)) as (Hw & He). rewrite Hw, He.
  split; [f_equal; lia | reflexivity].
Qed.

Lemma border_width (glyph : string) :
  one_column glyph ->
  visible_width_from false (border glyph) = 1
  /\ escape_after false (border glyph) = false.
Proof.
  intros (Hw & He). unfold border.
  rewrite !visible_width_app, !escape_after_app.
  change (escape_after false BORDER_COLOR) with false.
  rewrite He, Hw. split; reflexivity.
Qed.

Lemma h_line_width (cell_width : Z) :
  1 <= cell_width ->
  visible_width_from false (h_line cell_width) = cell_width - 1
  /\ escape_after false (h_line cell_width) = false.
Proof.
  intros Hw. unfold h_line.
  destruct (times_width "─" (cell_width - 1) eq_refl) as (Ht & He).
  rewrite !visible_width_app, !escape_after_app.
  change (escape_after false BORDER_COLOR) with false.
  rewrite He, Ht. change (visible_width_from false "─") with 1.
  split; [simpl; lia | reflexivity].
Qed.

Lemma empty_cells_width (cell_width : Z) (cells : list Z) :
  1 <= cell_width ->
  forall line,
    escape_after false line = false ->
    let row := fold_left
                 (fun line (_ : Z) =>
                    line ++ times " " (cell_width - 1) ++ border "│")
                 cells line in
    visible_width_from false row
    = visible_width_from false line + Z.of_nat (List.length cells) * cell_width
    /\ escape_after false row = false.
Proof.
  intros Hw. induction cells as [|i cells IH]; intros line Hline; cbn zeta.
  - simpl. split; [lia | exact Hline].
  - cbn [fold_left].
    destruct (spaces_width (cell_width - 1)) as (Hp & Hl).
    destruct (plain_width _ Hp) as (Ws & Es).
    destruct bar_width as (Wb & Eb).
    destruct (IH (line ++ times " " (cell_width - 1) ++ border "│")) as (Wr & Er).
    { rewrite !escape_after_app, Hline, Es. exact Eb. }
    cbn zeta in Wr, Er. rewrite Wr, Er.
    rewrite !visible_width_app, Hline, Es, Ws, Wb, Hl.
    split; [simpl List.length; lia | reflexivity].
Qed.

(** A padding row and a border of [n] cells of width [w] span [1 + n * w]
    columns, whatever the glyphs of the corners and joints, each one column
    wide. *)
Theorem frame_row_width (cell_count cell_width : Z) (left joint right : string) :
  1 <= cell_count -> 1 <= cell_width ->
  one_column left -> one_column joint -> one_column right ->
  visible_width (empty_line 0 cell_count cell_width)
  = 1 + cell_count * cell_width
  /\ visible_width (border_line 0 cell_count cell_width left joint right)
     = 1 + cell_count * cell_width.
Proof.
  intros Hn Hw Hl Hj Hr. unfold visible_width. split.
  - unfold empty_line.
    destruct (empty_cells_width cell_width (range cell_count) Hw
                (times " " 0 ++ border "│") eq_refl) as (We & _).
    cbn zeta in We. rewrite We, range_length by lia. reflexivity.
  - destruct (border_width left Hl) as (Wl & El).
    destruct (border_width joint Hj) as (Wj & Ej).
    destruct (border_width right Hr) as (Wr & Er).
    destruct (h_line_width cell_width Hw) as (Wh & Eh).
    unfold border_line.
    destruct (Z.eqb_spec cell_count 1) as [->|Hne].
    + rewrite !visible_width_app, ?escape_after_app.
      change (escape_after false (times " " 0)) with false.
      rewrite El, Eh, Wl, Wh, Wr.
      change (visible_width_from false (times " " 0)) with 0. lia.
    + destruct (times_width (border joint ++ h_line cell_width) (cell_count - 1))
        as (Wt & Et).
      { rewrite escape_after_app, Ej. exact Eh. }
      rewrite !visible_width_app, ?escape_after_app.
      change (escape_after false (times " " 0)) with false.
      rewrite El, Eh, Et, Wl, Wh, Wt, Wr.
      rewrite visible_width_app, Ej, Wj, Wh.
      change (visible_width_from false (times " " 0)) with 0. nia.
Qed.

Lemma frame_row_width_witness :
  visible_width (border_line 0 4 (cell_width_of 2) "└" "┴" "┘") = 193.
Proof.
  apply (frame_row_width 4 (cell_width_of 2) "└" "┴" "┘");
    first [split; reflexivity | vm_compute; discriminate].
Defined.

Section Aligned.

Context {T : Type} `{Adapter T}.

(** When every value fits the inside of its cell, every line of the pyramid
    but the last spans 193 columns, one more than the sixteen leaf cells,
    and the row of the leaf indices, which has no border, spans 192. *)
Theorem pyramid_aligned (tree : option T) (lines : list string) :
  draw_tree_structure tree = Ok lines ->
  values_fit tree ->
  Forall (fun line => visible_width line = 1 + 16 * LEAF_CELL_WIDTH)
    (removelast lines)
  /\ visible_width (last lines EmptyString) = 16 * LEAF_CELL_WIDTH.
Proof.
  intros E Hfit. rewrite draw_tree_structure_rows in E.
  apply bind_ok in E as (c0 & H0 & E). apply bind_ok in E as (c1 & H1 & E).
  apply bind_ok in E as (c2 & H2 & E). apply bind_ok in E as (c3 & H3 & E).
  apply bind_ok in E as (c4 & H4 & E). injection E as <-.
  assert (W0 := content_row_width tree 0 c0 ltac:(lia) H0
                  (fun i s => Hfit 0 i s ltac:(lia))).
  assert (W1 := content_row_width tree 1 c1 ltac:(lia) H1
                  (fun i s => Hfit 1 i s ltac:(lia))).
  assert (W2 := content_row_width tree 2 c2 ltac:(lia) H2
                  (fun i s => Hfit 2 i s ltac:(lia))).
  assert (W3 := content_row_width tree 3 c3 ltac:(lia) H3
                  (fun i s => Hfit 3 i s ltac:(lia))).
  assert (W4 := content_row_width tree 4 c4 ltac:(lia) H4
                  (fun i s => Hfit 4 i s ltac:(lia))).
  split.
  - unfold pyramid, level_rows. cbn [app removelast].
    repeat (apply Forall_cons; [first [assumption | vm_compute; reflexivity]|]).
    apply Forall_nil.
  - unfold pyramid, level_rows. cbn [app last]. vm_compute. reflexivity.
Qed.

End Aligned.

Lemma pyramid_aligned_witness :
  exists lines,
    draw_tree_structure (@None SegTree.t) = Ok lines
    /\ Forall (fun line => visible_width line = 193) (removelast lines).
Proof.
  eexists. split; [vm_compute; reflexivity|].
  refine (proj1 (pyramid_aligned (@None SegTree.t) _ eq_refl _)).
  intros level i s Hl Hi E. injection E as <-.
  destruct (level_cells level Hl) as (-> & _).
  assert (0 < 2 ^ (4 - level)) by (apply Z.pow_pos_nonneg; lia).
  unfold LEAF_CELL_WIDTH. change (PyStr.len "0") with 1. nia.
Defined.

(** ** The history panel and the screen *)

Lemma chars_app (a b : string) :
  PyStr.chars (a ++ b) = (PyStr.chars a + PyStr.chars b)%nat.
Proof.
  induction a as [|c a IH]; simpl; [reflexivity|].
  destruct (PyStr.continues c); rewrite IH; reflexivity.
Qed.

Lemma chars_take (n : nat) (s : string) :
  (PyStr.chars (PyStr.take n s) <= n)%nat.
Proof.
  revert n. induction s as [|c s IH]; intros n; simpl; [lia|].
  destruct (PyStr.continues c) eqn:Ec.
  - simpl. rewrite Ec. apply IH.
  - destruct n as [|n]; simpl; [lia|]. rewrite Ec. specialize (IH n). lia.
Qed.

Lemma take_escape_free (n : nat) (s : string) :
  PyStr.contains ESC s = false -> PyStr.contains ESC (PyStr.take n s) = false.
Proof.
  revert n. induction s as [|c s IH]; intros n; simpl; [reflexivity|].
  rewrite orb_false_iff. intros (Hc & Hs).
  destruct (PyStr.continues c).
  - simpl. rewrite Hc. apply IH, Hs.
  - destruct n as [|n]; simpl; [reflexivity|]. rewrite Hc. apply IH, Hs.
Qed.

Lemma replace_tab_escape_free (s : string) :
  PyStr.contains ESC s = false ->
  PyStr.contains ESC (PyStr.replace_char TAB " " s) = false.
Proof.
  induction s as [|c s IH]; simpl; [reflexivity|].
  rewrite !orb_false_iff. intros (Hc & Hs). split; [|exact (IH Hs)].
  destruct (c =? TAB)%char; [reflexivity | exact Hc].
Qed.

Lemma escape_free_width (s : string) :
  PyStr.contains ESC s = false ->
  visible_width_from false s = Z.of_nat (PyStr.chars s)
  /\ escape_after false s = false.
Proof.
  induction s as [|c s IH]; cbn [PyStr.contains PyStr.chars];
    [split; reflexivity|].
  rewrite orb_false_iff. intros (Hc & Hs). destruct (IH Hs) as (IHw & IHe).
  cbn [visible_width_from escape_after].
  rewrite Ascii.eqb_sym in Hc. rewrite Hc, IHw, IHe.
  change (is_continuation c) with (PyStr.continues c).
  destruct (PyStr.continues c); split; try reflexivity; lia.
Qed.

Lemma ljust_width (s : string) (n : Z) :
  PyStr.contains ESC s = false -> Z.of_nat (PyStr.chars s) <= n ->
  visible_width_from false (ljust s n) = n
  /\ escape_after false (ljust s n) = false.
Proof.
  intros Hs Hn. unfold ljust.
  destruct (escape_free_width s Hs) as (Ws & Es).
  destruct (spaces_width (n - Z.of_nat (PyStr.chars s))) as (Hp & Hl).
  destruct (plain_width _ Hp) as (Wp & Ep).
  rewrite visible_width_app, escape_after_app, Es, Ws, Wp, Ep, Hl.
  split; [lia | reflexivity].
Qed.

Lemma entry_row_width (entry : string) :
  PyStr.contains ESC entry = false -> visible_width (entry_row entry) = 32.
Proof.
  intros He. unfold visible_width, entry_row.
  set (cmd := PyStr.take 28 (PyStr.replace_char TAB " " entry)).
  destruct (ljust_width cmd 28) as (Wj & Ej).
  { apply take_escape_free, replace_tab_escape_free, He. }
  { pose proof (chars_take 28 (PyStr.replace_char TAB " " entry)).
    unfold cmd. lia. }
  destruct bar_width as (Wb & Eb).
  rewrite !visible_width_app, ?escape_after_app.
  rewrite Eb. cbn [escape_after]. change (" " =? ESC)%char with false.
  cbv iota. cbn [escape_after]. rewrite Ej. cbn [escape_after].
  change (" " =? ESC)%char with false. cbv iota. cbn [escape_after].
  rewrite Wb, Wj. reflexivity.
Qed.

Lemma shown_from_commands (commands : list string) (entry : string) :
  In entry (display_commands commands) -> In entry commands.
Proof.
  unfold display_commands. destruct (_ <? _); [|auto].
  intros Hin.
  rewrite <- (firstn_skipn (List.length commands - Z.to_nat COMMAND_ROWS) commands).
  apply in_or_app. right. exact Hin.
Qed.

Lemma panel_row_width (shown : list string) (i : Z) :
  (forall entry, In entry shown -> PyStr.contains ESC entry = false) ->
  visible_width (panel_row shown i) = 32.
Proof.
  intros Hs. unfold panel_row.
  destruct (Z.ltb_spec i (Z.of_nat (List.length shown))).
  - apply entry_row_width.
    destruct (nth_in_or_default (Z.to_nat i) shown EmptyString) as [Hin| ->];
      [apply Hs, Hin | reflexivity].
  - destruct (i =? _); reflexivity.
Qed.

Lemma panel_height (commands : option (list string)) :
  List.length (draw_command_area commands) = 22%nat.
Proof.
  unfold draw_command_area. rewrite !length_app, length_map. reflexivity.
Qed.

(** The panel is 22 lines high whatever the history, and while no entry
    holds an ESC every line of it spans 32 columns: an entry longer than 28
    characters is cut, a shorter one filled up. *)
Theorem panel_size (commands : option (list string)) :
  List.length (draw_command_area commands) = 22%nat
  /\ (escape_free commands ->
      Forall (fun line => visible_width line = 32) (draw_command_area commands)).
Proof.
  split; [apply panel_height|].
  intros Hfree. unfold draw_command_area.
  apply Forall_app. split; [repeat constructor|].
  apply Forall_app. split; [|repeat constructor].
  apply Forall_forall. intros line Hin.
  apply in_map_iff in Hin as (i & <- & _).
  apply panel_row_width. intros entry He.
  apply Hfree. destruct commands; [|contradiction].
  exact (shown_from_commands _ _ He).
Qed.

Lemma panel_size_witness :
  Forall (fun line => visible_width line = 32)
    (draw_command_area
       (Some ["> q 0 16"; "a result far longer than the twenty-eight columns"])).
Proof.
  apply panel_size. intros entry [<-|[<-|[]]]; reflexivity.
Defined.

Lemma rows_of_full (shown : list string) :
  List.length shown = 20%nat ->
  map (panel_row shown) (range COMMAND_ROWS) = map entry_row shown.
Proof.
  intros Hlen.
  do 20 (destruct shown as [|? shown]; [discriminate Hlen|]).
  destruct shown; [reflexivity | discriminate Hlen].
Qed.

(** The panel shows the last 20 entries of the history, oldest first; with
    fewer than 20 it shows them all, then the prompt, then blank rows. *)
Theorem panel_shows_last_entries (commands : list string) :
  ((List.length commands < 20)%nat ->
   draw_command_area (Some commands)
   = ([panel_top] ++ map entry_row commands ++ [prompt_row]
        ++ repeat blank_row (19 - List.length commands) ++ [panel_bottom])%list)
  /\ ((20 <= List.length commands)%nat ->
      draw_command_area (Some commands)
      = ([panel_top]
           ++ map entry_row (skipn (List.length commands - 20) commands)
           ++ [panel_bottom])%list).
Proof.
  split.
  - intros Hlen.
    do 20 (destruct commands as [|? commands]; [reflexivity|]).
    simpl in Hlen. lia.
  - intros Hlen. unfold draw_command_area.
    assert (Hs : display_commands commands
                 = skipn (List.length commands - 20) commands).
    { unfold display_commands, COMMAND_ROWS.
      destruct (Z.ltb_spec 20 (Z.of_nat (List.length commands))); [reflexivity|].
      replace (List.length commands - 20)%nat with 0%nat by lia. reflexivity. }
    cbv zeta. rewrite Hs, rows_of_full; [reflexivity|].
    rewrite length_skipn. lia.
Qed.

Lemma panel_shows_last_entries_witness :
  draw_command_area (Some (repeat "old" 7 ++ repeat "new" 20)%list)
  = ([panel_top] ++ map entry_row (repeat "new" 20) ++ [panel_bottom])%list.
Proof.
  apply (proj2 (panel_shows_last_entries (repeat "old" 7 ++ repeat "new" 20)%list)).
  simpl. lia.
Defined.

Lemma panel_line_long (commands : option (list string)) (line : string) :
  In line (draw_command_area commands) -> (32 <= PyStr.chars line)%nat.
Proof.
  unfold draw_command_area. intros Hin.
  apply in_app_or in Hin as [[<-|[]]|Hin]; [vm_compute; lia|].
  apply in_app_or in Hin as [Hin|[<-|[]]]; [|vm_compute; lia].
  apply in_map_iff in Hin as (i & <- & _). unfold panel_row.
  destruct (_ <? _); [|destruct (_ =? _); vm_compute; lia].
  unfold entry_row, ljust. rewrite !chars_app.
  change (PyStr.chars (border "│")) with 10%nat.
  assert (Hs : forall n : Z, PyStr.chars (times " " n) = Z.to_nat n).
  { intros n. destruct (spaces_width n) as (Hp & Hl). unfold PyStr.len in Hl.
    assert (Hc : forall s, plain s = true -> PyStr.chars s = String.length s).
    { induction s as [|c s IH]; simpl; [reflexivity|].
      rewrite !andb_true_iff. intros ((_ & Hc) & Hs).
      unfold PyStr.continues. apply Nat.ltb_lt in Hc.
      destruct (Nat.leb_spec 128 (PyStr.code c)); [lia|]. simpl.
      rewrite (IH Hs). reflexivity. }
    rewrite (Hc _ Hp). lia. }
  rewrite Hs. simpl PyStr.chars. lia.
Qed.

Lemma ljust_long (s : string) (n : Z) :
  n <= Z.of_nat (PyStr.chars s) -> ljust s n = s.
Proof.
  intros Hn. unfold ljust, times.
  replace (Z.to_nat (n - Z.of_nat (PyStr.chars s))) with 0%nat by lia.
  apply append_empty.
Qed.

Section ScreenFacts.

Context {T : Type} `{Adapter T}.

(** When the pyramid is drawn the screen has 22 lines, each the line of the
    panel, eight spaces, and the line of the pyramid; it is never filled up
    with blank lines, and it fails exactly as the renderer does. *)
Theorem screen_frame (commands : option (list string)) (tree : option T) :
  (forall rows,
     draw_tree_structure tree = Ok rows ->
     display_split_screen commands tree
     = Ok (map (fun '(c, r) => c ++ "        " ++ r)
             (combine (draw_command_area commands) rows))
     /\ List.length (combine (draw_command_area commands) rows) = 22%nat)
  /\ (forall e,
        draw_tree_structure tree = Raise e ->
        display_split_screen commands tree = Raise e).
Proof.
  split.
  - intros rows E.
    assert (Hr : List.length rows = 22%nat).
    { rewrite draw_tree_structure_rows in E.
      apply bind_ok in E as (c0 & _ & E). apply bind_ok in E as (c1 & _ & E).
      apply bind_ok in E as (c2 & _ & E). apply bind_ok in E as (c3 & _ & E).
      apply bind_ok in E as (c4 & _ & E). injection E as <-. reflexivity. }
    pose proof (panel_height commands) as Hp.
    unfold display_split_screen. rewrite E. cbn [bind].
    rewrite Hp, Hr. cbn [Nat.max Nat.sub repeat]. rewrite !app_nil_r.
    split; [|rewrite length_combine, Hp, Hr; reflexivity].
    f_equal. apply map_ext_in. intros [c r] Hin.
    apply in_combine_l in Hin.
    rewrite ljust_long; [reflexivity|].
    pose proof (panel_line_long commands c Hin). lia.
  - intros e E. unfold display_split_screen. rewrite E. reflexivity.
Qed.

End ScreenFacts.

Lemma screen_frame_witness :
  exists frame,
    display_split_screen (Some ["> q 0 1"; "0"]) (Some fresh) = Ok frame
    /\ List.length frame = 22%nat.
Proof.
  destruct (draw_returns (Some fresh) (SegTree_renderable fresh)) as (rows & E).
  destruct (screen_frame (Some ["> q 0 1"; "0"]) (Some fresh)) as (Hf & _).
  destruct (Hf rows E) as (Hd & Hl).
  eexists. split; [exact Hd | rewrite length_map; exact Hl].
Defined.


Lemma blank_line_ignored_witness :
  turn "sum" sum_class (mkSession fresh ["> q 0 1"; "0"]) (Line "   ")
  = Continue (mkSession fresh ["> q 0 1"; "0"]).
Proof.
  apply (blank_line_ignored "sum" sum_class (mkSession fresh ["> q 0 1"; "0"])
           "   " eq_refl).
Defined.

Lemma command_word_case_witness :
  parse_command "Q 0 16" fresh "sum" = parse_command "  q   0 16 " fresh "sum".
Proof.
  apply (command_word_case "Q 0 16" "  q   0 16 " fresh "sum" "Q" "q" ["0"; "16"]);
    reflexivity.
Defined.



Lemma failed_display_ends_session_witness :
  interactive_run "sum" (fun _ => inconsistent) (mkSession inconsistent [])
    [Line "quit"]
  = (Raised SegTree.out_of_range, [Line "quit"]).
Proof.
  apply (failed_display_ends_session "sum" (fun _ => inconsistent)
           (mkSession inconsistent []) [Line "quit"] SegTree.out_of_range).
  vm_compute. reflexivity.
Defined.

Lemma main_is_through_witness :
  main_loop sum_class min_class max_class 10
    [Line "1"; Line ""; Line "/home"; Line "2"; Line ""; Line "quit"]
  = main sum_class min_class max_class
      [Line "1"; Line ""; Line "/home"; Line "2"; Line ""; Line "quit"].
Proof.
  apply (main_is_through sum_class min_class max_class 10
           [Line "1"; Line ""; Line "/home"; Line "2"; Line ""; Line "quit"]).
  simpl. lia.
Defined.

Lemma menu_passes_over_witness :
  select_tree_type sum_class min_class max_class
    ([Line " 1"; Line "4"; Line "one"] ++ [Line "2"; Line ""])
  = select_tree_type sum_class min_class max_class [Line "2"; Line ""].
Proof.
  apply (menu_passes_over sum_class min_class max_class
           [Line " 1"; Line "4"; Line "one"] [Line "2"; Line ""]).
  repeat constructor.
Defined.

Lemma home_starts_anew_witness :
  main sum_class min_class max_class
    [Line "1"; Line ""; Line "s 0 5"; Line "/home"; Line "2"; Line ""; Line "q 0 16"]
  = main sum_class min_class max_class [Line "2"; Line ""; Line "q 0 16"].
Proof.
  apply (home_starts_anew sum_class min_class max_class
           [Line "1"; Line ""; Line "s 0 5"; Line "/home"; Line "2"; Line "";
            Line "q 0 16"]
           [Line "s 0 5"; Line "/home"; Line "2"; Line ""; Line "q 0 16"]
           [Line "2"; Line ""; Line "q 0 16"] "sum" "" sum_class).
  - reflexivity.
  - vm_compute. reflexivity.
Defined.

Lemma interrupt_after_choice_witness :
  main sum_class min_class max_class [Line "9"; Line "3"; Interrupt]
  = UncaughtInterrupt
  /\ main sum_class min_class max_class [Line "9"; Line "3"; Line ""; Interrupt]
     = MainReturns.
Proof.
  destruct (interrupt_after_choice sum_class min_class max_class
              [Line "9"] [] "3") as (Hu & Hr).
  - repeat constructor.
  - simpl. tauto.
  - split; [exact Hu | exact (Hr SegTree_renderable "")].
Defined.
